(** * User service of realworld-aws-lambda-dynamodb-go

    A shallow embedding of [service/UserService.go]: the user repository that
    keeps a user table and an email-to-username projection table consistent
    through DynamoDB transactions, together with the update-expression builder
    it uses for partial updates.

    Store calls are the nodes of a small program tree ([Prog]); a program is
    run against any store client, which records the calls it receives.  An
    in-memory client ([MemStore]) gives the calls their meaning on two finite
    maps. *)

From Stdlib Require Import Strings.Byte.
From stdpp Require Import gmap strings list.

Open Scope string_scope.
Open Scope list_scope.

(** ** Errors ([util] package and the AWS SDK) *)

(** Modelled from the spec: the [util] package is not among the sources.
    [InputError] is the field-scoped error [util.NewInputError(field, message)]
    builds; [AwsError] is an error value handed back by the AWS SDK,
    identified by its error code. *)
Inductive error : Type :=
| InputError (field message : string)
| AwsError (code : string).

Definition NewInputError (field message : string) : error :=
  InputError field message.

(** The error DynamoDB raises when a condition of a transaction fails. *)
Definition ConstraintViolation : error :=
  AwsError "TransactionCanceledException".

(** The error DynamoDB raises for a request it cannot interpret. *)
Definition ValidationException : error :=
  AwsError "ValidationException".

Definition isInputError (e : error) : bool :=
  match e with
  | InputError _ _ => true
  | AwsError _ => false
  end.

(** A not-found error is an input error whose message is "not found". *)
Definition isNotFound (e : error) : bool :=
  match e with
  | InputError _ message => String.eqb message "not found"
  | AwsError _ => false
  end.

(** A Go [(T, error)] result. *)
Inductive result (A : Type) : Type :=
| Ok (a : A)
| Err (e : error).
Arguments Ok {A} a.
Arguments Err {A} e.

(** ** Records ([model] package) *)

(** [model.User], with the fields the service and the update handler read and
    write.  [PasswordHash] is a Go byte slice: [None] is the nil slice,
    [Some []] an empty slice that is not nil. *)
Record User : Type := mkUser {
  Username : string;
  Email : string;
  PasswordHash : option (list byte);
  Image : string;
  Bio : string
}.

(** [model.EmailUser], the projection record. *)
Record EmailUser : Type := mkEmailUser {
  EmailOf : string;
  UsernameOf : string
}.

(** [model.User{}] and [model.EmailUser{}]. *)
Definition zeroUser : User := mkUser "" "" None "" "".
Definition zeroEmailUser : EmailUser := mkEmailUser "" "".

(** [bytes.Equal]: a nil slice and an empty slice are equal. *)
Fixpoint bytes_eqb (a b : list byte) : bool :=
  match a, b with
  | [], [] => true
  | x :: a', y :: b' => Byte.eqb x y && bytes_eqb a' b'
  | _, _ => false
  end.

Definition bytes_Equal (a b : option (list byte)) : bool :=
  bytes_eqb (default [] a) (default [] b).

(** ** DynamoDB values *)

Inductive TableName : Type :=
| UserTableName
| EmailUserTableName.

(** A single-attribute string key, as built by [StringKey(name, value)]. *)
Record AWSKey : Type := StringKey {
  keyName : string;
  keyValue : string
}.

(** An item, the attribute map of a table row.  It is represented by what
    it decodes to: [StoredUser u] is the item that unmarshals into the user
    [u], [EmailUserItem e] the item that unmarshals into the projection record
    [e], and [IllTypedItem] an item with an attribute of another type than the
    field it belongs to, which does not unmarshal. *)
Inductive Item : Type :=
| StoredUser (u : User)
| EmailUserItem (e : EmailUser)
| IllTypedItem.

(** The SDK writes a byte slice of length zero, nil or not, as the NULL
    attribute, and reads NULL back as the nil slice. *)
Definition storedBytes (b : list byte) : option (list byte) :=
  match b with
  | [] => None
  | _ :: _ => Some b
  end.

(** A user as it is read back once stored: an empty password hash has
    become nil, every other field is as it was. *)
Definition asStored (u : User) : User :=
  mkUser (Username u) (Email u)
    (match PasswordHash u with
     | None => None
     | Some b => storedBytes b
     end)
    (Image u) (Bio u).

(** The item a user marshals to. *)
Definition UserItem (u : User) : Item := StoredUser (asStored u).

(** The error of [dynamodbattribute.UnmarshalMap] on an item it cannot
    decode into the record. *)
Definition UnmarshalTypeError : error := AwsError "UnmarshalTypeError".

(** [dynamodbattribute.MarshalMap] and [UnmarshalMap] for a record type.
    Unmarshalling fills the fields whose attributes are present and leaves the
    others at their zero value; it fails on an ill-typed item. *)
Class Marshaler (A : Type) : Type := {
  MarshalMap : A -> result Item;
  UnmarshalMap : Item -> A -> result A
}.

#[export] Instance User_Marshaler : Marshaler User := {|
  MarshalMap u := Ok (UserItem u);
  UnmarshalMap item out :=
    match item with
    | StoredUser u => Ok u
    | EmailUserItem e =>
        Ok (mkUser (UsernameOf e) (EmailOf e) (PasswordHash out) (Image out) (Bio out))
    | IllTypedItem => Err UnmarshalTypeError
    end
|}.

#[export] Instance EmailUser_Marshaler : Marshaler EmailUser := {|
  MarshalMap e := Ok (EmailUserItem e);
  UnmarshalMap item out :=
    match item with
    | EmailUserItem e => Ok e
    | StoredUser u => Ok (mkEmailUser (Email u) (Username u))
    | IllTypedItem => Err UnmarshalTypeError
    end
|}.

(** ** Update expressions ([expression] package of the AWS SDK) *)

(** An operand built by [expression.Value]. *)
Inductive OperandValue : Type :=
| StringValue (s : string)
| BytesValue (b : list byte).

(** One operation of an update builder: [SET name = value] or [REMOVE name]. *)
Inductive operationBuilder : Type :=
| SET (name : string) (value : OperandValue)
| REMOVE (name : string).

(** [expression.UpdateBuilder]: the operations added so far, kept by kind as
    the SDK keeps them, each kind oldest first. *)
Record UpdateBuilder : Type := mkUpdateBuilder {
  removeOperations : list operationBuilder;
  setOperations : list operationBuilder
}.

(** [expression.UpdateBuilder{}]. *)
Definition zeroUpdateBuilder : UpdateBuilder := mkUpdateBuilder [] [].

Definition UpdateBuilder_Set (update : UpdateBuilder) (name : string)
    (value : OperandValue) : UpdateBuilder :=
  mkUpdateBuilder (removeOperations update)
    (setOperations update ++ [SET name value]).

Definition UpdateBuilder_Remove (update : UpdateBuilder) (name : string)
    : UpdateBuilder :=
  mkUpdateBuilder (removeOperations update ++ [REMOVE name])
    (setOperations update).

(** Modelled from the spec: [IsUpdateBuilderEmpty] is a helper of the service
    package that is not among the sources; the diff engine reports "no-op"
    exactly when no operation was added to the builder. *)
Definition IsUpdateBuilderEmpty (update : UpdateBuilder) : bool :=
  match removeOperations update, setOperations update with
  | [], [] => true
  | _, _ => false
  end.

(** The operations of a built update expression, in the order of its text:
    the [REMOVE] clause comes before the [SET] clause, and within a clause the
    operations are in the order they were added. *)
Definition builtOperations (update : UpdateBuilder) : list operationBuilder :=
  removeOperations update ++ setOperations update.

(** [expression.Expression]: [exprUpdate] is what [Update()] returns, [None]
    for the nil pointer.  The names and values of the expression are those of
    the operations it holds. *)
Record Expression : Type := mkExpression {
  exprUpdate : option (list operationBuilder)
}.

(** [expression.Expression{}]. *)
Definition zeroExpression : Expression := mkExpression None.

(** [expression.NewBuilder().WithUpdate(update).Build()]: the SDK refuses an
    update builder without operations. *)
Definition Build (update : UpdateBuilder) : result Expression :=
  match builtOperations update with
  | [] => Err (AwsError "UnsetParameterError")
  | _ :: _ => Ok (mkExpression (Some (builtOperations update)))
  end.

(** The operations of an expression; none when it has no update part. *)
Definition operations (expr : Expression) : list operationBuilder :=
  default [] (exprUpdate expr).

(** The operations of a builder that concern the attribute [name]. *)
Definition operationName (op : operationBuilder) : string :=
  match op with
  | SET name _ => name
  | REMOVE name => name
  end.

(** ** The update diff engine *)

Definition buildUserUpdateExpression (oldUser newUser : User) : result Expression :=
  let update : UpdateBuilder := zeroUpdateBuilder in
  let update :=
    if negb (String.eqb (Email oldUser) (Email newUser))
    then UpdateBuilder_Set update "Email" (StringValue (Email newUser))
    else update in
  let update :=
    match PasswordHash newUser with
    | Some hash =>
        if negb (bytes_Equal (PasswordHash oldUser) (PasswordHash newUser))
        then UpdateBuilder_Set update "PasswordHash" (BytesValue hash)
        else update
    | None => update
    end in
  let update :=
    if negb (String.eqb (Image oldUser) (Image newUser)) then
      if negb (String.eqb (Image newUser) "")
      then UpdateBuilder_Set update "Image" (StringValue (Image newUser))
      else UpdateBuilder_Remove update "Image"
    else update in
  let update :=
    if negb (String.eqb (Bio oldUser) (Bio newUser)) then
      if negb (String.eqb (Bio newUser) "")
      then UpdateBuilder_Set update "Bio" (StringValue (Bio newUser))
      else UpdateBuilder_Remove update "Bio"
    else update in
  if IsUpdateBuilderEmpty update then Ok zeroExpression
  else Build update.

(** ** Store calls *)

(** One operation of a write transaction ([dynamodb.TransactWriteItem]). *)
Inductive TransactWriteItem : Type :=
| Put (table : TableName) (item : Item) (ConditionExpression : string)
| Delete (table : TableName) (key : AWSKey) (ConditionExpression : string)
| Update (table : TableName) (key : AWSKey) (ConditionExpression : string)
    (UpdateExpression : Expression).

(** [dynamodb.TransactWriteItemsInput]. *)
Abbreviation TransactWriteItemsInput := (list TransactWriteItem).

(** [dynamodb.BatchGetItemInput]: the keys requested of each table. *)
Abbreviation BatchGetItemInput := (list (TableName * list AWSKey)).

(** What a batched get answers: pages, each giving items per table. *)
Abbreviation BatchGetResponses := (list (list (TableName * list Item))).

(** A program that talks to the store: it returns, or issues one call and
    goes on with the answer. *)
Inductive Prog (A : Type) : Type :=
| Return (a : A)
| GetItemCall (table : TableName) (key : AWSKey)
    (k : result (option Item) -> Prog A)
| BatchGetItemCall (input : BatchGetItemInput) (capacity : nat)
    (k : result BatchGetResponses -> Prog A)
| TransactWriteItemsCall (input : TransactWriteItemsInput)
    (k : option error -> Prog A).
Arguments Return {A} a.
Arguments GetItemCall {A} table key k.
Arguments BatchGetItemCall {A} input capacity k.
Arguments TransactWriteItemsCall {A} input k.

Fixpoint Prog_bind {A B : Type} (f : A -> Prog B) (p : Prog A) : Prog B :=
  match p with
  | Return a => f a
  | GetItemCall table key k => GetItemCall table key (fun r => Prog_bind f (k r))
  | BatchGetItemCall input capacity k =>
      BatchGetItemCall input capacity (fun r => Prog_bind f (k r))
  | TransactWriteItemsCall input k =>
      TransactWriteItemsCall input (fun r => Prog_bind f (k r))
  end.

#[export] Instance Prog_ret : MRet Prog := @Return.
#[export] Instance Prog_mbind : MBind Prog := @Prog_bind.

(** [DynamoDB().TransactWriteItems(&input)], keeping the error only. *)
Definition TransactWriteItems (input : TransactWriteItemsInput) : Prog (option error) :=
  TransactWriteItemsCall input Return.

(** Modelled from the spec: [GetItemByKey] is a helper of the service package
    that is not among the sources.  It gets one item by key and unmarshals it
    into [out]; an absent item is "not found" ([Ok None]), not an error. *)
Definition GetItemByKey {A : Type} `{Marshaler A} (table : TableName)
    (key : AWSKey) (out : A) : Prog (result (option A)) :=
  GetItemCall table key (fun r =>
    match r with
    | Err e => Return (Err e)
    | Ok None => Return (Ok None)
    | Ok (Some item) =>
        match UnmarshalMap item out with
        | Err e => Return (Err e)
        | Ok v => Return (Ok (Some v))
        end
    end).

(** Modelled from the spec: [BatchGetItems] is a helper of the service package
    that is not among the sources.  It is one batched get: the request goes to
    the store client, which pages and retries as it must, and the pages of the
    answer come back, or the store's error. *)
Definition BatchGetItems (input : BatchGetItemInput) (capacity : nat)
    : Prog (result BatchGetResponses) :=
  BatchGetItemCall input capacity Return.

(** ** The user repository *)

Section Service.

(** [model.User.Validate], which is not among the sources: [None] when the
    user passes validation. *)
Variable Validate : User -> option error.

Definition PutUser (user : User) : Prog (option error) :=
  match Validate user with
  | Some err => Return (Some err)
  | None =>
  match MarshalMap user with
  | Err err => Return (Some err)
  | Ok userItem =>
  let emailUser := mkEmailUser (Email user) (Username user) in
  match MarshalMap emailUser with
  | Err err => Return (Some err)
  | Ok emailUserItem =>
  let transaction : TransactWriteItemsInput :=
    [ Put UserTableName userItem "attribute_not_exists(Username)";
      Put EmailUserTableName emailUserItem "attribute_not_exists(Email)" ] in
  err ← TransactWriteItems transaction;
  match err with
  | Some err => Return (Some err)
  | None => Return None
  end
  end end end.

Definition UpdateUser (oldUser newUser : User) : Prog (option error) :=
  match Validate newUser with
  | Some err => Return (Some err)
  | None =>
  let emailUser := mkEmailUser (Email newUser) (Username newUser) in
  match MarshalMap emailUser with
  | Err err => Return (Some err)
  | Ok emailUserItem =>
  let transactItems : TransactWriteItemsInput := [] in
  let transactItems :=
    if negb (String.eqb (Email oldUser) (Email newUser)) then
      let transactItems := transactItems ++
        [Put EmailUserTableName emailUserItem "attribute_not_exists(Email)"] in
      transactItems ++
        [Delete EmailUserTableName (StringKey "Email" (Email oldUser))
           "attribute_exists(Email)"]
    else transactItems in
  match buildUserUpdateExpression oldUser newUser with
  | Err err => Return (Some err)
  | Ok expr =>
  match exprUpdate expr with
  | None => Return None
  | Some _ =>
  let transactItems := transactItems ++
    [Update UserTableName (StringKey "Username" (Username oldUser))
       "attribute_exists(Username)" expr] in
  err ← TransactWriteItems transactItems;
  match err with
  | Some err => Return (Some err)
  | None => Return None
  end
  end end end end.

End Service.

Definition GetUsernameByEmail (email : string) : Prog (result string) :=
  r ← GetItemByKey EmailUserTableName (StringKey "Email" email) zeroEmailUser;
  match r with
  | Err err => Return (Err err)
  | Ok None => Return (Err (NewInputError "email" "not found"))
  | Ok (Some emailUser) => Return (Ok (UsernameOf emailUser))
  end.

Definition GetUserByUsername (username : string) : Prog (result User) :=
  r ← GetItemByKey UserTableName (StringKey "Username" username) zeroUser;
  match r with
  | Err err => Return (Err err)
  | Ok None => Return (Err (NewInputError "username" "not found"))
  | Ok (Some user) => Return (Ok user)
  end.

Definition GetUserByEmail (email : string) : Prog (result User) :=
  if String.eqb email "" then
    Return (Err (NewInputError "email" "can't be blank"))
  else
    r ← GetUsernameByEmail email;
    match r with
    | Err err => Return (Err err)
    | Ok username =>
        if String.eqb username "" then
          Return (Err (NewInputError "email" "not found"))
        else GetUserByUsername username
    end.

(** The loop that unmarshals every item of every page and files it under its
    username; a later item replaces an earlier one of the same name. *)
Fixpoint collectUsers (items : list Item) (usersByUsername : gmap string User)
    : result (gmap string User) :=
  match items with
  | [] => Ok usersByUsername
  | item :: rest =>
      match UnmarshalMap item zeroUser with
      | Err err => Err err
      | Ok user => collectUsers rest (<[Username user := user]> usersByUsername)
      end
  end.

(** The items of all pages, in the order the three nested loops visit them. *)
Definition responseItems (responses : BatchGetResponses) : list Item :=
  concat (map (fun response => concat (map snd response)) responses).

(** The keys of the request are the members of a set of the usernames.  Go
    leaves the order in which a map is ranged over open; here it is the order
    of the set's elements, and nothing below depends on it. *)
Definition GetUserListByUsername (usernames : list string) : Prog (result (list User)) :=
  if Nat.eqb (length usernames) 0 then Return (Ok [])
  else
    let usernameSet : gset string := list_to_set usernames in
    let keys := map (StringKey "Username") (elements usernameSet) in
    let batchGetUsers : BatchGetItemInput := [(UserTableName, keys)] in
    r ← BatchGetItems batchGetUsers (length usernames);
    match r with
    | Err err => Return (Err err)
    | Ok responses =>
        match collectUsers (responseItems responses) ∅ with
        | Err err => Return (Err err)
        | Ok usersByUsername =>
            Return (Ok (map (fun username =>
                              default zeroUser (usersByUsername !! username))
                            usernames))
        end
    end.

(** ** Running a program against a store client *)

(** A call as the store client receives it. *)
Inductive StoreCall : Type :=
| CallGetItem (table : TableName) (key : AWSKey)
| CallBatchGetItem (input : BatchGetItemInput)
| CallTransactWriteItems (input : TransactWriteItemsInput).

(** A store client over worlds [W]: what each call answers, and the world it
    leaves.  Nothing is assumed of the answers. *)
Record StoreClient (W : Type) : Type := {
  getItem : TableName -> AWSKey -> W -> result (option Item) * W;
  batchGetItem : BatchGetItemInput -> W -> result BatchGetResponses * W;
  transactWriteItems : TransactWriteItemsInput -> W -> option error * W
}.
Arguments getItem {W} _ _ _ _.
Arguments batchGetItem {W} _ _ _.
Arguments transactWriteItems {W} _ _ _.

(** What a run leaves: the value returned, the final world, and the calls the
    client received, oldest first. *)
Record Outcome (W A : Type) : Type := mkOutcome {
  returned : A;
  world : W;
  calls : list StoreCall
}.
Arguments mkOutcome {W A} returned world calls.
Arguments returned {W A} _.
Arguments world {W A} _.
Arguments calls {W A} _.

Definition logged {W A : Type} (call : StoreCall) (o : Outcome W A) : Outcome W A :=
  mkOutcome (returned o) (world o) (call :: calls o).

Fixpoint run {W A : Type} (client : StoreClient W) (p : Prog A) (w : W)
    : Outcome W A :=
  match p with
  | Return a => mkOutcome a w []
  | GetItemCall table key k =>
      let '(r, w') := getItem client table key w in
      logged (CallGetItem table key) (run client (k r) w')
  | BatchGetItemCall input capacity k =>
      let '(r, w') := batchGetItem client input w in
      logged (CallBatchGetItem input) (run client (k r) w')
  | TransactWriteItemsCall input k =>
      let '(r, w') := transactWriteItems client input w in
      logged (CallTransactWriteItems input) (run client (k r) w')
  end.

(** ** An in-memory store

    DynamoDB as the service sees it, after the store client of the spec: a
    get answers the item or its absence, a batched get the items found, and a
    write transaction applies all of its operations or none. *)

(** The two tables, each keyed by its primary key. *)
Record Store : Type := mkStore {
  users : gmap string User;
  emails : gmap string EmailUser
}.

#[export] Instance result_ret : MRet result := @Ok.
#[export] Instance result_bind : MBind result := fun A B f r =>
  match r with
  | Ok a => f a
  | Err e => Err e
  end.

(** The record a table keeps for an item: the attributes the table's record
    type has, the others at their zero value. *)
Definition toUser (item : Item) : User :=
  match item with
  | StoredUser u => u
  | EmailUserItem e => mkUser (UsernameOf e) (EmailOf e) None "" ""
  | IllTypedItem => zeroUser
  end.

Definition toEmailUser (item : Item) : EmailUser :=
  match item with
  | EmailUserItem e => e
  | StoredUser u => mkEmailUser (Email u) (Username u)
  | IllTypedItem => zeroEmailUser
  end.

(** The name of a table's primary key attribute. *)
Definition primaryKey (table : TableName) : string :=
  match table with
  | UserTableName => "Username"
  | EmailUserTableName => "Email"
  end.

Definition lookupItem (st : Store) (table : TableName) (key : AWSKey)
    : result (option Item) :=
  if negb (String.eqb (keyName key) (primaryKey table)) then Err ValidationException
  else match table with
       | UserTableName => Ok (StoredUser <$> users st !! keyValue key)
       | EmailUserTableName => Ok (EmailUserItem <$> emails st !! keyValue key)
       end.

(** The conditions the service uses test an attribute every item of either
    table has, so they test whether the item is there. *)
Definition conditionHolds (condition : string) (present : bool) : result bool :=
  if String.eqb condition "attribute_not_exists(Username)"
     || String.eqb condition "attribute_not_exists(Email)" then Ok (negb present)
  else if String.eqb condition "attribute_exists(Username)"
     || String.eqb condition "attribute_exists(Email)" then Ok present
  else Err ValidationException.

(** The table and key value an operation of a transaction addresses. *)
Definition target (op : TransactWriteItem) : result (TableName * string) :=
  match op with
  | Put _ IllTypedItem _ => Err ValidationException
  | Put UserTableName item _ => Ok (UserTableName, Username (toUser item))
  | Put EmailUserTableName item _ => Ok (EmailUserTableName, EmailOf (toEmailUser item))
  | Delete table key _ | Update table key _ _ =>
      if String.eqb (keyName key) (primaryKey table) then Ok (table, keyValue key)
      else Err ValidationException
  end.

Definition condition (op : TransactWriteItem) : string :=
  match op with
  | Put _ _ c | Delete _ _ c | Update _ _ c _ => c
  end.

Definition present (st : Store) (table : TableName) (key : string) : bool :=
  match table with
  | UserTableName => bool_decide (is_Some (users st !! key))
  | EmailUserTableName => bool_decide (is_Some (emails st !! key))
  end.

(** Whether the condition of an operation holds in [st]. *)
Definition checkOperation (st : Store) (op : TransactWriteItem) : result bool :=
  '(table, key) ← target op;
  conditionHolds (condition op) (present st table key).

(** One operation of an update expression applied to a user record.  A
    password hash of length zero is written as NULL, which reads back as
    nil. *)
Definition applyToUser (u : User) (op : operationBuilder) : User :=
  match op with
  | SET "Email" (StringValue s) =>
      mkUser (Username u) s (PasswordHash u) (Image u) (Bio u)
  | SET "PasswordHash" (BytesValue b) =>
      mkUser (Username u) (Email u) (storedBytes b) (Image u) (Bio u)
  | SET "Image" (StringValue s) =>
      mkUser (Username u) (Email u) (PasswordHash u) s (Bio u)
  | SET "Bio" (StringValue s) =>
      mkUser (Username u) (Email u) (PasswordHash u) (Image u) s
  | REMOVE "PasswordHash" =>
      mkUser (Username u) (Email u) None (Image u) (Bio u)
  | REMOVE "Image" =>
      mkUser (Username u) (Email u) (PasswordHash u) "" (Bio u)
  | REMOVE "Bio" =>
      mkUser (Username u) (Email u) (PasswordHash u) (Image u) ""
  | _ => u
  end.

(** The effect of one operation whose condition held. *)
Definition applyOperation (st : Store) (op : TransactWriteItem) : Store :=
  match op with
  | Put _ IllTypedItem _ => st
  | Put UserTableName item _ =>
      mkStore (<[Username (toUser item) := toUser item]> (users st)) (emails st)
  | Put EmailUserTableName item _ =>
      mkStore (users st) (<[EmailOf (toEmailUser item) := toEmailUser item]> (emails st))
  | Delete UserTableName key _ => mkStore (delete (keyValue key) (users st)) (emails st)
  | Delete EmailUserTableName key _ => mkStore (users st) (delete (keyValue key) (emails st))
  | Update UserTableName key _ expr =>
      let u := default (mkUser (keyValue key) "" None "" "") (users st !! keyValue key) in
      mkStore (<[keyValue key := foldl applyToUser u (operations expr)]> (users st))
              (emails st)
  | Update EmailUserTableName _ _ _ => st
  end.

(** A write transaction: every condition is checked against the store as it
    is; when all hold the operations are applied, otherwise nothing is. *)
Definition transact (st : Store) (input : TransactWriteItemsInput)
    : option error * Store :=
  match mapM (checkOperation st) input with
  | Err e => (Some e, st)
  | Ok checks =>
      if forallb id checks then (None, foldl applyOperation st input)
      else (Some ConstraintViolation, st)
  end.

(** A batched get: one page, holding for each table the items found. *)
Definition batchLookup (st : Store) (input : BatchGetItemInput)
    : result BatchGetResponses :=
  page ← mapM (fun '(table, keys) =>
                 found ← mapM (lookupItem st table) keys;
                 Ok (table, omap id found)) input;
  Ok [page].

Definition MemStore : StoreClient Store := {|
  getItem table key st := (lookupItem st table key, st);
  batchGetItem input st := (batchLookup st input, st);
  transactWriteItems input st := transact st input
|}.

(** Modelled from the spec: [model.User.Validate] is not among the sources;
    the spec names the non-blank check among the field validators.  This
    validator refuses a blank username and a blank email. *)
Definition ValidateNotBlank (user : User) : option error :=
  if String.eqb (Username user) "" then Some (NewInputError "username" "can't be blank")
  else if String.eqb (Email user) "" then Some (NewInputError "email" "can't be blank")
  else None.

(** ** The diff, field by field

    One definition per field, in the terms of the spec's field policy; the
    engine above is shown to compute their operations, the removes before the
    sets as the built expression lists them. *)

#[export] Instance byte_eq_dec : EqDecision byte := Byte.byte_eq_dec.

(** email: [SET] when changed. *)
Definition emailOperations (oldUser newUser : User) : list operationBuilder :=
  if decide (Email oldUser = Email newUser) then []
  else [SET "Email" (StringValue (Email newUser))].

(** password credential: [SET] when the new slice is not nil and its bytes
    differ from the old ones. *)
Definition credentialOperations (oldUser newUser : User) : list operationBuilder :=
  match PasswordHash newUser with
  | None => []
  | Some hash =>
      if decide (default [] (PasswordHash oldUser) = hash) then []
      else [SET "PasswordHash" (BytesValue hash)]
  end.

(** image, bio: when changed, [SET] a non-empty value and [REMOVE] on an
    empty one. *)
Definition optionalOperations (name oldValue newValue : string)
    : list operationBuilder :=
  if decide (oldValue = newValue) then []
  else if decide (newValue = "") then [REMOVE name]
  else [SET name (StringValue newValue)].

(** The operations in the order the engine adds them. *)
Definition fieldOperations (oldUser newUser : User) : list operationBuilder :=
  emailOperations oldUser newUser ++ credentialOperations oldUser newUser
  ++ optionalOperations "Image" (Image oldUser) (Image newUser)
  ++ optionalOperations "Bio" (Bio oldUser) (Bio newUser).

Definition isRemove (op : operationBuilder) : bool :=
  match op with
  | REMOVE _ => true
  | SET _ _ => false
  end.

(** The operations in the order of the built expression: those that remove,
    then those that set. *)
Definition diffOperations (oldUser newUser : User) : list operationBuilder :=
  List.filter isRemove (fieldOperations oldUser newUser)
  ++ List.filter (fun op => negb (isRemove op)) (fieldOperations oldUser newUser).

(** What the policy asks of an optional string field, given the operations
    of a diff. *)
Definition optionalFieldPolicy (name oldValue newValue : string)
    (ops : list operationBuilder) : Prop :=
  (oldValue <> newValue -> newValue <> "" -> SET name (StringValue newValue) ∈ ops)
  /\ (oldValue <> newValue -> newValue = "" -> REMOVE name ∈ ops)
  /\ (oldValue = newValue -> forall op, op ∈ ops -> operationName op <> name).

(** The statement of C7 for one pair of users, with "present" read as
    "non-empty": the diff holds a [SET] of the credential exactly when the new
    credential has at least one byte and differs from the old; a nil new
    credential gives no operation on the credential; and the diff never holds
    its [REMOVE]. *)
Definition credentialSetIffNonEmpty (oldUser newUser : User) : Prop :=
  forall expr, buildUserUpdateExpression oldUser newUser = Ok expr ->
    ((exists v, SET "PasswordHash" v ∈ operations expr)
     <-> default [] (PasswordHash newUser) <> []
         /\ default [] (PasswordHash oldUser) <> default [] (PasswordHash newUser))
    /\ (PasswordHash newUser = None ->
        forall op, op ∈ operations expr -> operationName op <> "PasswordHash")
    /\ REMOVE "PasswordHash" ∉ operations expr.

(** ** The transactions of the repository *)

(** The projection record of a user. *)
Definition projectionOf (user : User) : EmailUser :=
  mkEmailUser (Email user) (Username user).

(** The transaction of Create: the user record and its projection record,
    each on condition that its key is free. *)
Definition createTransaction (user : User) : TransactWriteItemsInput :=
  [ Put UserTableName (UserItem user) "attribute_not_exists(Username)";
    Put EmailUserTableName (EmailUserItem (projectionOf user))
      "attribute_not_exists(Email)" ].

(** The two projection operations of an email change. *)
Definition projectionSwap (oldUser newUser : User) : TransactWriteItemsInput :=
  [ Put EmailUserTableName (EmailUserItem (projectionOf newUser))
      "attribute_not_exists(Email)";
    Delete EmailUserTableName (StringKey "Email" (Email oldUser))
      "attribute_exists(Email)" ].

(** The update of the user record by a diff expression. *)
Definition userUpdate (oldUser : User) (expr : Expression) : TransactWriteItem :=
  Update UserTableName (StringKey "Username" (Username oldUser))
    "attribute_exists(Username)" expr.

(** The transaction of an email change: the projection swap and the update
    of the user record. *)
Definition swapTransaction (oldUser newUser : User) (expr : Expression)
    : TransactWriteItemsInput :=
  projectionSwap oldUser newUser ++ [userUpdate oldUser expr].

(** Update swaps the projection in one transaction: whatever the store
    client and the world, Update issues exactly one call, the transaction
    holding the projection swap and the update of the user record by the
    diff, which sets the email. *)
Definition swapsInOneTransaction (Validate : User -> option error)
    (oldUser newUser : User) : Prop :=
  exists expr,
    buildUserUpdateExpression oldUser newUser = Ok expr
    /\ SET "Email" (StringValue (Email newUser)) ∈ operations expr
    /\ forall (W : Type) (client : StoreClient W) (w : W),
         run client (UpdateUser Validate oldUser newUser) w
           = run client (TransactWriteItems (swapTransaction oldUser newUser expr)) w
         /\ calls (run client (UpdateUser Validate oldUser newUser) w)
              = [CallTransactWriteItems (swapTransaction oldUser newUser expr)].

(** Whether a transaction holds a put into the projection table. *)
Definition putsProjection (input : TransactWriteItemsInput) : Prop :=
  exists item c, Put EmailUserTableName item c ∈ input.

(** Whether a transaction holds the update of the record of [oldUser]. *)
Definition updatesUser (oldUser : User) (input : TransactWriteItemsInput) : Prop :=
  exists expr, userUpdate oldUser expr ∈ input /\ exprUpdate expr <> None.

(** ** Fetch by email, as the spec words it *)

(** The statement of C2 for one store and one email: an email without a
    projection record gives the not-found error of the email, and a
    projection record that points to a missing user gives an error that is
    not a not-found error. *)
Definition fetchByEmailSurfacesDangling (st : Store) (email : string) : Prop :=
  (emails st !! email = None ->
   returned (run MemStore (GetUserByEmail email) st)
     = Err (InputError "email" "not found"))
  /\ (forall projection,
        emails st !! email = Some projection ->
        users st !! UsernameOf projection = None ->
        exists e,
          returned (run MemStore (GetUserByEmail email) st) = Err e
          /\ isNotFound e = false).

(** ** Fetch of a batch, as the spec words it *)

(** The usernames of a batch without repetition, and the keys asked of the
    store for them. *)
Definition uniqueUsernames (usernames : list string) : list string :=
  elements (list_to_set usernames : gset string).

Definition batchKeys (usernames : list string) : list AWSKey :=
  map (StringKey "Username") (uniqueUsernames usernames).

(** A user table files every record under its username. *)
Definition keyedByUsername (table : gmap string User) : Prop :=
  forall key user, table !! key = Some user -> Username user = key.

(** The store returned [item]: it is among the items some page of the
    answer gives for some table. *)
Definition returnedItem (responses : BatchGetResponses) (item : Item) : Prop :=
  exists page table items,
    page ∈ responses /\ (table, items) ∈ page /\ item ∈ items.

(** The pages [responses] answer a batched get of [usernames] on [table]:
    every item the store returned is a record of the table, and the record of
    every requested username that the table holds was returned, in whatever
    page and order. *)
Definition answers (table : gmap string User) (usernames : list string)
    (responses : BatchGetResponses) : Prop :=
  (forall item, returnedItem responses item ->
     exists user, item = StoredUser user /\ table !! Username user = Some user)
  /\ (forall username user, username ∈ usernames ->
        table !! username = Some user ->
        returnedItem responses (StoredUser user)).

(** The record of each requested username, the zero user where the table has
    none. *)
Definition usersOrZero (table : gmap string User) (usernames : list string)
    : list User :=
  map (fun username => default zeroUser (table !! username)) usernames.

(** ** Sample records and stores *)

Definition alice : User :=
  mkUser "alice" "alice@example.com" (Some ["x"%byte; "y"%byte]) "" "hello".

(** [alice] asking for a new email, a new image and no bio; the nil password
    hash leaves the credential alone. *)
Definition aliceMoved : User :=
  mkUser "alice" "alice@example.org" None "https://example.org/a.png" "".

(** [alice] with a password hash that is empty but not nil. *)
Definition aliceEmptyHash : User :=
  mkUser "alice" "alice@example.com" (Some []) "" "hello".

(** A new user who asks for the email [alice] holds. *)
Definition bob : User :=
  mkUser "bob" "alice@example.com" (Some ["z"%byte]) "" "".

(** A store holding [alice] and her projection record. *)
Definition aliceStore : Store :=
  mkStore {[ "alice" := alice ]}
          {[ "alice@example.com" := mkEmailUser "alice@example.com" "alice" ]}.

(** A store whose only projection record points to a user that is not there. *)
Definition danglingStore : Store :=
  mkStore ∅ {[ "ghost@example.com" := mkEmailUser "ghost@example.com" "ghost" ]}.

(** ** The current user and the update handler

    [GetCurrentUser] of the service and [Handle] of [route/user-put].  What
    they call outside the sources is a variable of the section: the
    verification of the authorization header, the JSON decoder, the password
    validator, the password hash and the validator of a user. *)

(** The part of [UserRequest] and [UserResponse] the handler reads and
    writes; the field names carry a prefix because [Email], [Image] and [Bio]
    are fields of [User]. *)
Record UserRequest : Type := mkUserRequest {
  reqEmail : string;
  reqPassword : string;
  reqImage : string;
  reqBio : string
}.

Record RequestBody : Type := mkRequestBody {
  reqUser : UserRequest
}.

Record UserResponse : Type := mkUserResponse {
  respUsername : string;
  respEmail : string;
  respImage : string;
  respBio : string;
  respToken : string
}.

Record ResponseBody : Type := mkResponseBody {
  respUser : UserResponse
}.

(** [events.APIGatewayProxyRequest], the two fields the handler reads. *)
Record APIGatewayProxyRequest : Type := mkRequest {
  Headers : gmap string string;
  Body : string
}.

(** Modelled from the spec: the response constructors of the [util] package
    are not among the sources; a response is told by the constructor that
    built it. *)
Inductive Response : Type :=
| NewUnauthorizedResponse
| NewErrorResponse (err : error)
| NewSuccessResponse (status : nat) (body : ResponseBody).

Section Handler.

(** [VerifyAuthorization]: the username and the token of a header, or an
    error. *)
Variable VerifyAuthorization : string -> result (string * string).

(** [json.Unmarshal] into a [RequestBody]. *)
Variable jsonUnmarshal : string -> result RequestBody.

(** [model.ValidatePassword]. *)
Variable ValidatePassword : string -> option error.

(** [service.Scrypt]: the hash, a byte slice, or an error. *)
Variable Scrypt : string -> result (option (list byte)).

Variable Validate : User -> option error.

Definition GetCurrentUser (auth : string) : Prog (result (User * string)) :=
  match VerifyAuthorization auth with
  | Err err => Return (Err err)
  | Ok (username, token) =>
      r ← GetUserByUsername username;
      match r with
      | Err err => Return (Err err)
      | Ok user => Return (Ok (user, token))
      end
  end.

Definition Handle (request : APIGatewayProxyRequest) : Prog Response :=
  r ← GetCurrentUser (default "" (Headers request !! "Authorization"));
  match r with
  | Err _ => Return NewUnauthorizedResponse
  | Ok (oldUser, token) =>
  match jsonUnmarshal (Body request) with
  | Err err => Return (NewErrorResponse err)
  | Ok requestBody =>
  match ValidatePassword (reqPassword (reqUser requestBody)) with
  | Some err => Return (NewErrorResponse err)
  | None =>
  match Scrypt (reqPassword (reqUser requestBody)) with
  | Err err => Return (NewErrorResponse err)
  | Ok passwordHash =>
  let newUser :=
    mkUser (Username oldUser) (reqEmail (reqUser requestBody)) passwordHash
      (reqImage (reqUser requestBody)) (reqBio (reqUser requestBody)) in
  err ← UpdateUser Validate oldUser newUser;
  match err with
  | Some err => Return (NewErrorResponse err)
  | None =>
      let responseBody :=
        mkResponseBody
          (mkUserResponse (Username newUser) (Email newUser) (Image newUser)
             (Bio newUser) token) in
      Return (NewSuccessResponse 200 responseBody)
  end
  end end end end.

End Handler.

(** The new user the handler builds from the current user, the decoded
    request and the password hash. *)
Definition requestedUser (oldUser : User) (requestBody : RequestBody)
    (passwordHash : option (list byte)) : User :=
  mkUser (Username oldUser) (reqEmail (reqUser requestBody)) passwordHash
    (reqImage (reqUser requestBody)) (reqBio (reqUser requestBody)).

(** The header the handler verifies: the empty string when the request has
    none. *)
Definition authorizationOf (request : APIGatewayProxyRequest) : string :=
  default "" (Headers request !! "Authorization").

(** ** Consistent stores *)

(** The two tables agree: every user is filed under its username, every
    projection record is filed under its email and points to a user who has
    that email, and every user has the projection record of its email. *)
Definition consistent (st : Store) : Prop :=
  keyedByUsername (users st)
  /\ (forall email projection, emails st !! email = Some projection ->
        EmailOf projection = email
        /\ exists user, users st !! UsernameOf projection = Some user
                        /\ Email user = email)
  /\ (forall username user, users st !! username = Some user ->
        exists projection, emails st !! Email user = Some projection
                           /\ UsernameOf projection = username).

(** Whether some field differs under the policy of the diff engine. *)
Definition someFieldDiffers (oldUser newUser : User) : Prop :=
  Email oldUser <> Email newUser
  \/ (exists hash, PasswordHash newUser = Some hash
                   /\ default [] (PasswordHash oldUser) <> hash)
  \/ Image oldUser <> Image newUser
  \/ Bio oldUser <> Bio newUser.

(** The names an update of a user may carry, in the order the diff engine
    adds them. *)
Definition diffNames : list string := ["Email"; "PasswordHash"; "Image"; "Bio"].

(** Whether an operation of a transaction stays with the user [user]: it is
    the update of the record of [user], a put of a projection record that
    points to [user], or the delete of the projection record of the email of
    [user]. *)
Definition staysWith (user : User) (op : TransactWriteItem) : Prop :=
  (exists expr, op = userUpdate user expr)
  \/ (exists email,
        op = Put EmailUserTableName
               (EmailUserItem (mkEmailUser email (Username user)))
               "attribute_not_exists(Email)")
  \/ op = Delete EmailUserTableName (StringKey "Email" (Email user))
            "attribute_exists(Email)".

(** ** Sample collaborators of the handler *)

(** A verification that knows one header. *)
Definition sampleVerify (auth : string) : result (string * string) :=
  if String.eqb auth "Token alice-token" then Ok ("alice", "alice-token")
  else Err (AwsError "Unauthorized").

(** A decoder that knows one body: it gives the email of [alice] and a
    password, and leaves image and bio out. *)
Definition sampleUnmarshal (body : string) : result RequestBody :=
  if String.eqb body "bio-only" then
    Ok (mkRequestBody (mkUserRequest "alice@example.com" "secret" "" ""))
  else Err (AwsError "SyntaxError").

Definition samplePassword (password : string) : option error :=
  if String.eqb password "" then Some (NewInputError "password" "can't be blank")
  else None.

(** A hash that is the same for every password. *)
Definition sampleScrypt (password : string) : result (option (list byte)) :=
  Ok (Some ["x"%byte; "y"%byte]).

Definition sampleRequest : APIGatewayProxyRequest :=
  mkRequest {[ "Authorization" := "Token alice-token" ]} "bio-only".

(** ** Proof steps *)

Ltac case_string_eqb :=
  repeat match goal with
  | |- context [String.eqb ?a ?b] => destruct (String.eqb_spec a b)
  end.

(** * Properties *)

(** ** Byte slices *)

Lemma bytes_eqb_eq (a b : list byte) : bytes_eqb a b = true <-> a = b.
Proof.
  revert b; induction a as [|x a IH]; intros [|y b]; simpl; try (split; congruence).
  rewrite andb_true_iff, IH. split.
  - intros [Hxy ->]. f_equal. now apply Byte.byte_dec_bl.
  - intros [= -> ->]. split; [|reflexivity]. now apply Byte.byte_dec_lb.
Qed.

Lemma bytes_Equal_false (a : option (list byte)) (hash : list byte) :
  bytes_Equal a (Some hash) = false <-> default [] a <> hash.
Proof.
  unfold bytes_Equal; simpl. rewrite <- bytes_eqb_eq.
  destruct (bytes_eqb (default [] a) hash); split; congruence.
Qed.

(** ** The diff engine computes the diff policy *)

Lemma buildUserUpdateExpression_operations (oldUser newUser : User) :
  exists expr,
    buildUserUpdateExpression oldUser newUser = Ok expr
    /\ operations expr = diffOperations oldUser newUser
    /\ (exprUpdate expr = None <-> diffOperations oldUser newUser = []).
Proof.
  unfold buildUserUpdateExpression, diffOperations, fieldOperations,
    emailOperations, credentialOperations, optionalOperations.
  destruct (PasswordHash newUser) as [hash|] eqn:Hnew.
  - destruct (bytes_Equal (PasswordHash oldUser) (Some hash)) eqn:Heq.
    + assert (default [] (PasswordHash oldUser) = hash) as Hsame
        by (apply bytes_eqb_eq; exact Heq).
      case_string_eqb; simpl; repeat case_decide; try congruence;
        (eexists; split; [reflexivity|]; simpl; split; [reflexivity|];
         split; congruence).
    + apply bytes_Equal_false in Heq.
      case_string_eqb; simpl; repeat case_decide; try congruence;
        (eexists; split; [reflexivity|]; simpl; split; [reflexivity|];
         split; congruence).
  - case_string_eqb; simpl; repeat case_decide; try congruence;
      (eexists; split; [reflexivity|]; simpl; split; [reflexivity|];
       split; congruence).
Qed.

(** ** Membership in the diff *)

Lemma elem_of_emailOperations (oldUser newUser : User) (op : operationBuilder) :
  op ∈ emailOperations oldUser newUser
  <-> Email oldUser <> Email newUser /\ op = SET "Email" (StringValue (Email newUser)).
Proof.
  unfold emailOperations. case_decide.
  - rewrite elem_of_nil. tauto.
  - rewrite list_elem_of_singleton. tauto.
Qed.

Lemma elem_of_credentialOperations (oldUser newUser : User) (op : operationBuilder) :
  op ∈ credentialOperations oldUser newUser
  <-> exists hash, PasswordHash newUser = Some hash
        /\ default [] (PasswordHash oldUser) <> hash
        /\ op = SET "PasswordHash" (BytesValue hash).
Proof.
  unfold credentialOperations. destruct (PasswordHash newUser) as [hash|].
  - case_decide.
    + rewrite elem_of_nil. split; [tauto|]. intros (h & [= <-] & Hne & _). tauto.
    + rewrite list_elem_of_singleton. split.
      * intros ->. eauto.
      * intros (h & [= <-] & _ & ->). reflexivity.
  - rewrite elem_of_nil. split; [tauto|]. intros (h & Hh & _). discriminate.
Qed.

Lemma elem_of_optionalOperations (name oldValue newValue : string)
    (op : operationBuilder) :
  op ∈ optionalOperations name oldValue newValue
  <-> oldValue <> newValue
      /\ (newValue = "" /\ op = REMOVE name
          \/ newValue <> "" /\ op = SET name (StringValue newValue)).
Proof.
  unfold optionalOperations. repeat case_decide;
    rewrite ?elem_of_nil, ?list_elem_of_singleton; tauto.
Qed.

Lemma elem_of_diffOperations (oldUser newUser : User) (op : operationBuilder) :
  op ∈ diffOperations oldUser newUser
  <-> op ∈ emailOperations oldUser newUser
      \/ op ∈ credentialOperations oldUser newUser
      \/ op ∈ optionalOperations "Image" (Image oldUser) (Image newUser)
      \/ op ∈ optionalOperations "Bio" (Bio oldUser) (Bio newUser).
Proof.
  unfold diffOperations.
  rewrite elem_of_app, !list_elem_of_In, !filter_In, <- !list_elem_of_In.
  unfold fieldOperations. rewrite !elem_of_app.
  destruct (isRemove op); cbn; intuition congruence.
Qed.

(** Every operation of the diff names the field it was emitted for. *)
Lemma diffOperations_cases (oldUser newUser : User) (op : operationBuilder) :
  op ∈ diffOperations oldUser newUser ->
  (Email oldUser <> Email newUser /\ op = SET "Email" (StringValue (Email newUser)))
  \/ (exists hash, PasswordHash newUser = Some hash
        /\ default [] (PasswordHash oldUser) <> hash
        /\ op = SET "PasswordHash" (BytesValue hash))
  \/ (Image oldUser <> Image newUser
      /\ (Image newUser = "" /\ op = REMOVE "Image"
          \/ Image newUser <> "" /\ op = SET "Image" (StringValue (Image newUser))))
  \/ (Bio oldUser <> Bio newUser
      /\ (Bio newUser = "" /\ op = REMOVE "Bio"
          \/ Bio newUser <> "" /\ op = SET "Bio" (StringValue (Bio newUser)))).
Proof.
  rewrite elem_of_diffOperations, elem_of_emailOperations,
    elem_of_credentialOperations, !elem_of_optionalOperations. tauto.
Qed.

Lemma optionalFieldPolicy_Image (oldUser newUser : User) :
  optionalFieldPolicy "Image" (Image oldUser) (Image newUser)
    (diffOperations oldUser newUser).
Proof.
  repeat split.
  - intros Hne Hset. apply elem_of_diffOperations. right; right; left.
    apply elem_of_optionalOperations. tauto.
  - intros Hne Hempty. apply elem_of_diffOperations. right; right; left.
    apply elem_of_optionalOperations. tauto.
  - intros Hsame op Hop Hname. apply diffOperations_cases in Hop.
    destruct Hop as [[_ ->]|[(h & _ & _ & ->)|[[Hne _]|[_ [[_ ->]|[_ ->]]]]]];
      simpl in Hname; congruence.
Qed.

Lemma optionalFieldPolicy_Bio (oldUser newUser : User) :
  optionalFieldPolicy "Bio" (Bio oldUser) (Bio newUser)
    (diffOperations oldUser newUser).
Proof.
  repeat split.
  - intros Hne Hset. apply elem_of_diffOperations. right; right; right.
    apply elem_of_optionalOperations. tauto.
  - intros Hne Hempty. apply elem_of_diffOperations. right; right; right.
    apply elem_of_optionalOperations. tauto.
  - intros Hsame op Hop Hname. apply diffOperations_cases in Hop.
    destruct Hop as [[_ ->]|[(h & _ & _ & ->)|[[_ [[_ ->]|[_ ->]]]|[Hne _]]]];
      simpl in Hname; congruence.
Qed.

(** C8: for each of the optional string fields image and bio, the diff holds
    [SET field = newValue] when the value changed to a non-empty one,
    [REMOVE field] when it changed to the empty string, and no operation on
    the field when it did not change. *)
Theorem optional_fields_diff (oldUser newUser : User) :
  exists expr,
    buildUserUpdateExpression oldUser newUser = Ok expr
    /\ optionalFieldPolicy "Image" (Image oldUser) (Image newUser) (operations expr)
    /\ optionalFieldPolicy "Bio" (Bio oldUser) (Bio newUser) (operations expr).
Proof.
  destruct (buildUserUpdateExpression_operations oldUser newUser)
    as (expr & Hbuild & Hops & _).
  exists expr. rewrite Hops.
  split; [exact Hbuild|].
  split; [apply optionalFieldPolicy_Image | apply optionalFieldPolicy_Bio].
Qed.

(** For [alice] moving to [aliceMoved] the image is set and the bio removed. *)
Lemma optional_fields_diff_witness :
  exists expr,
    buildUserUpdateExpression alice aliceMoved = Ok expr
    /\ SET "Image" (StringValue "https://example.org/a.png") ∈ operations expr
    /\ REMOVE "Bio" ∈ operations expr.
Proof.
  destruct (optional_fields_diff alice aliceMoved)
    as (expr & Hbuild & (Himage & _ & _) & (_ & Hbio & _)).
  exists expr. split; [exact Hbuild|]. split.
  - apply Himage; discriminate.
  - apply Hbio; [discriminate | reflexivity].
Defined.

(** C7, as amended: the diff holds [SET] for the password credential exactly
    when the new credential is not nil (it may have length zero) and its bytes
    differ from the old ones; a nil new credential gives no operation on the
    credential, and the diff never holds [REMOVE] for it. *)
Theorem credential_diff (oldUser newUser : User) :
  exists expr,
    buildUserUpdateExpression oldUser newUser = Ok expr
    /\ (forall v, SET "PasswordHash" v ∈ operations expr
          <-> exists hash, PasswordHash newUser = Some hash
                /\ default [] (PasswordHash oldUser) <> hash
                /\ v = BytesValue hash)
    /\ (PasswordHash newUser = None ->
        forall op, op ∈ operations expr -> operationName op <> "PasswordHash")
    /\ REMOVE "PasswordHash" ∉ operations expr.
Proof.
  destruct (buildUserUpdateExpression_operations oldUser newUser)
    as (expr & Hbuild & Hops & _).
  exists expr. rewrite Hops. split; [exact Hbuild|]. repeat split.
  - intros Hin. apply diffOperations_cases in Hin.
    destruct Hin as [[_ [=]]|[(h & Hh & Hne & [= ->])|[[_ [[_ [=]]|[_ [=]]]]|[_ [[_ [=]]|[_ [=]]]]]]].
    eauto.
  - intros (h & Hh & Hne & ->). apply elem_of_diffOperations. right; left.
    apply elem_of_credentialOperations. eauto.
  - intros Hnil op Hop Hname. apply diffOperations_cases in Hop.
    destruct Hop as [[_ ->]|[(h & Hh & _)|[[_ [[_ ->]|[_ ->]]]|[_ [[_ ->]|[_ ->]]]]]];
      simpl in Hname; congruence.
  - intros Hin. apply diffOperations_cases in Hin.
    destruct Hin as [[_ [=]]|[(h & _ & _ & [=])|[[_ [[_ [=]]|[_ [=]]]]|[_ [[_ [=]]|[_ [=]]]]]]].
Qed.

(** The diff from [alice] to [aliceEmptyHash] sets the credential to the
    empty slice. *)
Lemma credential_diff_witness :
  exists expr,
    buildUserUpdateExpression alice aliceEmptyHash = Ok expr
    /\ SET "PasswordHash" (BytesValue []) ∈ operations expr.
Proof.
  destruct (credential_diff alice aliceEmptyHash) as (expr & Hbuild & Hset & _).
  exists expr. split; [exact Hbuild|].
  apply Hset. exists []. repeat split. discriminate.
Defined.

(** C7, as stated, fails: going from [alice] to [aliceEmptyHash] the new
    credential is empty, yet the diff holds a [SET] for it. *)
Lemma credential_set_on_empty_hash :
  ~ credentialSetIffNonEmpty alice aliceEmptyHash.
Proof.
  intros Hclaim.
  destruct (Hclaim (mkExpression (Some [SET "PasswordHash" (BytesValue [])])) eq_refl)
    as [[Hnonempty _] _].
  destruct Hnonempty as [Hne _].
  - exists (BytesValue []). simpl. apply list_elem_of_singleton. reflexivity.
  - apply Hne. reflexivity.
Qed.

(** ** Runs *)

Lemma run_TransactWriteItems {W : Type} (client : StoreClient W)
    (input : TransactWriteItemsInput) (w : W) :
  run client (TransactWriteItems input) w
    = mkOutcome (transactWriteItems client input w).1
                (transactWriteItems client input w).2
                [CallTransactWriteItems input].
Proof.
  simpl. destruct (transactWriteItems client input w) as [r w']. reflexivity.
Qed.

(** Returning the error of a transaction as it came is the transaction. *)
Lemma run_TransactWriteItems_return {W : Type} (client : StoreClient W)
    (input : TransactWriteItemsInput) (w : W) :
  run client (err ← TransactWriteItems input;
              match err with
              | Some err => Return (Some err)
              | None => Return None
              end) w
    = run client (TransactWriteItems input) w.
Proof.
  simpl. destruct (transactWriteItems client input w) as [[e|] w']; reflexivity.
Qed.

Lemma emailOperations_changed (oldUser newUser : User) :
  Email oldUser <> Email newUser ->
  emailOperations oldUser newUser = [SET "Email" (StringValue (Email newUser))].
Proof. intros Hne. unfold emailOperations. case_decide; [contradiction|reflexivity]. Qed.

Lemma diffOperations_changed_email (oldUser newUser : User) :
  Email oldUser <> Email newUser -> diffOperations oldUser newUser <> [].
Proof.
  intros Hne Hnil.
  assert (SET "Email" (StringValue (Email newUser)) ∈ diffOperations oldUser newUser)
    as Hin.
  { apply elem_of_diffOperations. left. rewrite emailOperations_changed by exact Hne.
    apply list_elem_of_singleton. reflexivity. }
  rewrite Hnil in Hin. apply elem_of_nil in Hin. exact Hin.
Qed.

(** ** Create *)

Lemma PutUser_valid (Validate : User -> option error) (user : User)
    {W : Type} (client : StoreClient W) (w : W) :
  Validate user = None ->
  run client (PutUser Validate user) w
    = run client (TransactWriteItems (createTransaction user)) w.
Proof.
  intros Hvalid. unfold PutUser. rewrite Hvalid.
  apply run_TransactWriteItems_return.
Qed.

Lemma PutUser_invalid (Validate : User -> option error) (user : User) (e : error) :
  Validate user = Some e -> PutUser Validate user = Return (Some e).
Proof. intros Hinvalid. unfold PutUser. rewrite Hinvalid. reflexivity. Qed.

(** C9: for a user that passes validation, Create issues exactly one store
    call, a write transaction of exactly two puts: the user record on
    condition that the username does not exist, and the projection record
    (email, username) on condition that the email does not exist.  What Create
    returns and the world it leaves are those of that transaction. *)
Theorem PutUser_single_transaction (Validate : User -> option error) (user : User)
    (W : Type) (client : StoreClient W) (w : W) :
  Validate user = None ->
  let transaction :=
    [ Put UserTableName (UserItem user) "attribute_not_exists(Username)";
      Put EmailUserTableName
        (EmailUserItem (mkEmailUser (Email user) (Username user)))
        "attribute_not_exists(Email)" ] in
  calls (run client (PutUser Validate user) w) = [CallTransactWriteItems transaction]
  /\ returned (run client (PutUser Validate user) w)
       = (transactWriteItems client transaction w).1
  /\ world (run client (PutUser Validate user) w)
       = (transactWriteItems client transaction w).2.
Proof.
  intros Hvalid transaction.
  rewrite (PutUser_valid Validate user client w Hvalid).
  change (createTransaction user) with transaction.
  rewrite run_TransactWriteItems. auto.
Qed.

(** [bob] is created on the empty store by one transaction of two puts. *)
Lemma PutUser_single_transaction_witness :
  calls (run MemStore (PutUser ValidateNotBlank bob) (mkStore ∅ ∅))
    = [CallTransactWriteItems (createTransaction bob)].
Proof.
  exact (proj1 (PutUser_single_transaction ValidateNotBlank bob Store MemStore
                  (mkStore ∅ ∅) eq_refl)).
Defined.

(** ** Update *)

(** The three ways Update can go. *)
Lemma UpdateUser_cases (Validate : User -> option error) (oldUser newUser : User) :
  match Validate newUser with
  | Some e => UpdateUser Validate oldUser newUser = Return (Some e)
  | None =>
      exists expr,
        buildUserUpdateExpression oldUser newUser = Ok expr
        /\ operations expr = diffOperations oldUser newUser
        /\ (exprUpdate expr = None <-> diffOperations oldUser newUser = [])
        /\ match exprUpdate expr with
           | None => UpdateUser Validate oldUser newUser = Return None
           | Some _ =>
               forall (W : Type) (client : StoreClient W) (w : W),
                 run client (UpdateUser Validate oldUser newUser) w
                   = run client
                       (TransactWriteItems
                          ((if decide (Email oldUser = Email newUser) then []
                            else projectionSwap oldUser newUser)
                           ++ [userUpdate oldUser expr])) w
           end
  end.
Proof.
  unfold UpdateUser.
  destruct (Validate newUser) as [e|]; [reflexivity|].
  destruct (buildUserUpdateExpression_operations oldUser newUser)
    as (expr & Hbuild & Hops & Hnone).
  exists expr. repeat (split; [assumption|]).
  cbn [MarshalMap EmailUser_Marshaler]. rewrite Hbuild.
  destruct (exprUpdate expr) as [update|]; [|reflexivity].
  intros W client w. rewrite run_TransactWriteItems_return.
  destruct (String.eqb_spec (Email oldUser) (Email newUser));
    case_decide; try contradiction; reflexivity.
Qed.

(** C1: for every pair of users with different emails, once the new user
    has passed validation Update issues exactly one store call, a single
    write transaction that holds the put of the new projection record (new
    email, new username) on condition [attribute_not_exists(Email)], the
    delete of the old projection record keyed by the old email on condition
    [attribute_exists(Email)], and the update of the user record by the diff,
    which sets the email.  Whatever the validator says, the three are never
    split across calls: a run receives no call at all or that one
    transaction. *)
Theorem UpdateUser_swaps_in_one_transaction (Validate : User -> option error)
    (oldUser newUser : User) :
  Email oldUser <> Email newUser ->
  (Validate newUser = None -> swapsInOneTransaction Validate oldUser newUser)
  /\ exists expr,
       buildUserUpdateExpression oldUser newUser = Ok expr
       /\ forall (W : Type) (client : StoreClient W) (w : W),
            calls (run client (UpdateUser Validate oldUser newUser) w) = []
            \/ calls (run client (UpdateUser Validate oldUser newUser) w)
               = [CallTransactWriteItems
                    [ Put EmailUserTableName
                        (EmailUserItem
                           (mkEmailUser (Email newUser) (Username newUser)))
                        "attribute_not_exists(Email)";
                      Delete EmailUserTableName (StringKey "Email" (Email oldUser))
                        "attribute_exists(Email)";
                      Update UserTableName
                        (StringKey "Username" (Username oldUser))
                        "attribute_exists(Username)" expr ]].
Proof.
  intros Hne.
  pose proof (UpdateUser_cases Validate oldUser newUser) as Hcases.
  destruct (buildUserUpdateExpression_operations oldUser newUser)
    as (expr & Hbuild & Hops & Hnone).
  assert (exists update, exprUpdate expr = Some update) as [update Hupdate].
  { destruct (exprUpdate expr) as [update|]; [eauto|].
    exfalso. apply (diffOperations_changed_email oldUser newUser Hne).
    apply Hnone. reflexivity. }
  split.
  - intros Hvalid. rewrite Hvalid in Hcases.
    destruct Hcases as (expr' & Hbuild' & _ & _ & Hrun).
    assert (expr' = expr) as -> by congruence.
    exists expr. split; [exact Hbuild|]. split.
    + rewrite Hops. apply elem_of_diffOperations. left.
      apply elem_of_emailOperations. auto.
    + rewrite Hupdate in Hrun. intros W client w. rewrite Hrun.
      case_decide; [contradiction|].
      split; [reflexivity|]. rewrite run_TransactWriteItems. reflexivity.
  - exists expr. split; [exact Hbuild|]. intros W client w.
    destruct (Validate newUser) as [e|].
    + left. rewrite Hcases. reflexivity.
    + destruct Hcases as (expr' & Hbuild' & _ & _ & Hrun).
      assert (expr' = expr) as -> by congruence.
      rewrite Hupdate in Hrun. right. rewrite Hrun, run_TransactWriteItems.
      case_decide; [contradiction|]. reflexivity.
Qed.

(** [alice] moves to a new email in one transaction. *)
Lemma UpdateUser_swaps_in_one_transaction_witness :
  swapsInOneTransaction ValidateNotBlank alice aliceMoved.
Proof.
  refine (proj1 (UpdateUser_swaps_in_one_transaction ValidateNotBlank alice
                   aliceMoved _) eq_refl).
  discriminate.
Defined.

(** C4: when the emails differ the diff expression is built, holds the [SET]
    of the email and has an update part; so in every run of Update a
    transaction that puts a projection record also updates the user record,
    and Update never returns success without a store call. *)
Theorem email_change_reaches_update (Validate : User -> option error)
    (oldUser newUser : User) :
  Email oldUser <> Email newUser ->
  (exists expr,
     buildUserUpdateExpression oldUser newUser = Ok expr
     /\ SET "Email" (StringValue (Email newUser)) ∈ operations expr
     /\ operations expr <> []
     /\ exprUpdate expr <> None)
  /\ forall (W : Type) (client : StoreClient W) (w : W),
       (forall input,
          CallTransactWriteItems input
            ∈ calls (run client (UpdateUser Validate oldUser newUser) w) ->
          putsProjection input -> updatesUser oldUser input)
       /\ ~ (returned (run client (UpdateUser Validate oldUser newUser) w) = None
             /\ calls (run client (UpdateUser Validate oldUser newUser) w) = []).
Proof.
  intros Hne. split.
  - destruct (buildUserUpdateExpression_operations oldUser newUser)
      as (expr & Hbuild & Hops & Hnone).
    exists expr. split; [exact Hbuild|]. rewrite Hops. split; [|split].
    + apply elem_of_diffOperations. left. apply elem_of_emailOperations. auto.
    + apply diffOperations_changed_email, Hne.
    + intros H. apply (diffOperations_changed_email oldUser newUser Hne), Hnone, H.
  - intros W client w.
    pose proof (UpdateUser_cases Validate oldUser newUser) as Hcases.
    destruct (Validate newUser) as [e|].
    + rewrite Hcases. simpl. split; [|intros [[=] _]].
      intros input Hin. apply elem_of_nil in Hin. contradiction.
    + destruct Hcases as (expr & Hbuild & Hops & Hnone & Hrun).
      destruct (exprUpdate expr) as [update|] eqn:Hupdate.
      * rewrite Hrun, run_TransactWriteItems. simpl. split; [|intros [_ [=]]].
        intros input Hin _. apply list_elem_of_singleton in Hin.
        injection Hin as ->. exists expr. split; [|congruence].
        apply elem_of_app. right. apply list_elem_of_singleton. reflexivity.
      * exfalso. apply (diffOperations_changed_email oldUser newUser Hne).
        apply Hnone. reflexivity.
Qed.

(** For [alice] moving to [aliceMoved] the diff sets the new email. *)
Lemma email_change_reaches_update_witness :
  exists expr,
    buildUserUpdateExpression alice aliceMoved = Ok expr
    /\ SET "Email" (StringValue "alice@example.org") ∈ operations expr
    /\ operations expr <> []
    /\ exprUpdate expr <> None.
Proof.
  refine (proj1 (email_change_reaches_update ValidateNotBlank alice aliceMoved _)).
  discriminate.
Defined.

(** C5: when the new user passes validation and no field differs under the
    policies of the diff engine (same email, a nil credential or the same
    bytes, same image, same bio), Update returns success at once: it is the
    program that returns [nil] without a store call, so a run leaves the world
    as it was and the client receives nothing. *)
Theorem UpdateUser_unchanged_no_call (Validate : User -> option error)
    (oldUser newUser : User) :
  Validate newUser = None ->
  Email oldUser = Email newUser ->
  (PasswordHash newUser = None
   \/ bytes_Equal (PasswordHash oldUser) (PasswordHash newUser) = true) ->
  Image oldUser = Image newUser ->
  Bio oldUser = Bio newUser ->
  UpdateUser Validate oldUser newUser = Return None
  /\ forall (W : Type) (client : StoreClient W) (w : W),
       run client (UpdateUser Validate oldUser newUser) w = mkOutcome None w [].
Proof.
  intros Hvalid Hemail Hhash Himage Hbio.
  assert (UpdateUser Validate oldUser newUser = Return None) as Hreturn.
  { pose proof (UpdateUser_cases Validate oldUser newUser) as Hcases.
    rewrite Hvalid in Hcases.
    destruct Hcases as (expr & _ & _ & Hnone & Hrun).
    assert (diffOperations oldUser newUser = []) as Hnil.
    { unfold diffOperations, fieldOperations, emailOperations,
        credentialOperations, optionalOperations.
      repeat case_decide; try contradiction.
      destruct Hhash as [->|Hequal]; [reflexivity|].
      destruct (PasswordHash newUser) as [hash|]; [|reflexivity].
      apply bytes_eqb_eq in Hequal. simpl in Hequal.
      case_decide; [reflexivity|contradiction]. }
    apply Hnone in Hnil. rewrite Hnil in Hrun. exact Hrun. }
  split; [exact Hreturn|].
  intros W client w. rewrite Hreturn. reflexivity.
Qed.

(** Updating [alice] to herself touches nothing. *)
Lemma UpdateUser_unchanged_no_call_witness :
  run MemStore (UpdateUser ValidateNotBlank alice alice) aliceStore
    = mkOutcome None aliceStore [].
Proof.
  refine (proj2 (UpdateUser_unchanged_no_call ValidateNotBlank alice alice
                   eq_refl eq_refl (or_intror eq_refl) eq_refl eq_refl)
                Store MemStore aliceStore).
Defined.

(** ** Fetch by email *)

(** C10: for the empty email, fetching by email is the program that returns
    the input error (email, "can't be blank") without a store call: no get of
    the projection and no get of the user record reaches the client, and the
    world is left as it was. *)
Theorem GetUserByEmail_blank :
  GetUserByEmail "" = Return (Err (InputError "email" "can't be blank"))
  /\ forall (W : Type) (client : StoreClient W) (w : W),
       run client (GetUserByEmail "") w
         = mkOutcome (Err (InputError "email" "can't be blank")) w [].
Proof. split; [reflexivity|]. intros W client w. reflexivity. Qed.

(** What the in-memory store answers to the two gets of a fetch by email. *)
Lemma run_GetUserByEmail_MemStore (st : Store) (email : string) :
  email <> "" ->
  returned (run MemStore (GetUserByEmail email) st)
    = match emails st !! email with
      | None => Err (InputError "email" "not found")
      | Some projection =>
          if String.eqb (UsernameOf projection) "" then
            Err (InputError "email" "not found")
          else match users st !! UsernameOf projection with
               | None => Err (InputError "username" "not found")
               | Some user => Ok user
               end
      end.
Proof.
  intros Hemail. unfold GetUserByEmail.
  destruct (String.eqb_spec email ""); [contradiction|].
  simpl. destruct (emails st !! email) as [projection|]; [|reflexivity].
  simpl. destruct (String.eqb (UsernameOf projection) ""); [reflexivity|].
  simpl. destruct (users st !! UsernameOf projection); reflexivity.
Qed.

(** C2, as amended: for every email that is not empty, fetching by email
    fails with the input error (email, "not found") when the email has no
    projection record, and also when its projection record holds an empty
    username; when the projection record points to a username without a user
    record it fails with the fetch by username's own not-found error, the
    input error (username, "not found"); otherwise it returns the user. *)
Theorem GetUserByEmail_not_found (st : Store) (email : string) :
  email <> "" ->
  (emails st !! email = None ->
   returned (run MemStore (GetUserByEmail email) st)
     = Err (InputError "email" "not found"))
  /\ (forall projection,
        emails st !! email = Some projection ->
        UsernameOf projection = "" ->
        returned (run MemStore (GetUserByEmail email) st)
          = Err (InputError "email" "not found"))
  /\ (forall projection,
        emails st !! email = Some projection ->
        UsernameOf projection <> "" ->
        users st !! UsernameOf projection = None ->
        returned (run MemStore (GetUserByEmail email) st)
          = Err (InputError "username" "not found")
        /\ isNotFound (InputError "username" "not found") = true)
  /\ (forall projection user,
        emails st !! email = Some projection ->
        UsernameOf projection <> "" ->
        users st !! UsernameOf projection = Some user ->
        returned (run MemStore (GetUserByEmail email) st) = Ok user).
Proof.
  intros Hemail. rewrite (run_GetUserByEmail_MemStore st email Hemail).
  split; [|split; [|split]].
  - intros ->. reflexivity.
  - intros projection -> ->. reflexivity.
  - intros projection -> Hname ->.
    destruct (String.eqb_spec (UsernameOf projection) ""); [contradiction|].
    split; reflexivity.
  - intros projection user -> Hname ->.
    destruct (String.eqb_spec (UsernameOf projection) ""); [contradiction|].
    reflexivity.
Qed.

(** On [danglingStore] the fetch by the dangling email answers the not-found
    error of the username. *)
Lemma GetUserByEmail_not_found_witness :
  returned (run MemStore (GetUserByEmail "ghost@example.com") danglingStore)
    = Err (InputError "username" "not found").
Proof.
  refine (proj1 (proj1 (proj2 (proj2
    (GetUserByEmail_not_found danglingStore "ghost@example.com" _)))
    (mkEmailUser "ghost@example.com" "ghost") eq_refl _ eq_refl));
    discriminate.
Defined.

(** C2, as stated, fails: on [danglingStore] the projection record of
    "ghost@example.com" points to a user that is not there, and the fetch
    answers a not-found error. *)
Lemma GetUserByEmail_dangling_is_not_found :
  ~ fetchByEmailSurfacesDangling danglingStore "ghost@example.com".
Proof.
  intros [_ Hdangling].
  destruct (Hdangling (mkEmailUser "ghost@example.com" "ghost") eq_refl eq_refl)
    as (e & Hreturned & Hnot).
  injection Hreturned as <-. discriminate Hnot.
Qed.

(** The first half of C2 fails at the empty email: on the empty store no
    email is registered, and the fetch answers "can't be blank". *)
Lemma GetUserByEmail_blank_is_not_not_found :
  ~ fetchByEmailSurfacesDangling (mkStore ∅ ∅) "".
Proof.
  intros [Hunregistered _]. specialize (Hunregistered eq_refl).
  discriminate Hunregistered.
Qed.

(** ** Create on a taken key *)

(** C3 at a failing input: [bob] passes validation and asks for the email
    [alice] holds.  The condition on the email fails, the store cancels the
    transaction, and Create returns the store's error as it came: it is not an
    input error, and the store is left as it was. *)
Theorem PutUser_conflict_returns_store_error :
  ValidateNotBlank bob = None
  /\ returned (run MemStore (PutUser ValidateNotBlank bob) aliceStore)
       = Some (AwsError "TransactionCanceledException")
  /\ isInputError (AwsError "TransactionCanceledException") = false
  /\ world (run MemStore (PutUser ValidateNotBlank bob) aliceStore) = aliceStore.
Proof. repeat split; vm_compute; reflexivity. Qed.

(** Whatever the client, Create hands back the error of its transaction
    unchanged. *)
Lemma PutUser_propagates_error (Validate : User -> option error) (user : User)
    {W : Type} (client : StoreClient W) (w : W) (e : error) :
  Validate user = None ->
  (transactWriteItems client (createTransaction user) w).1 = Some e ->
  returned (run client (PutUser Validate user) w) = Some e.
Proof.
  intros Hvalid Hfail.
  rewrite (PutUser_valid Validate user client w Hvalid), run_TransactWriteItems.
  exact Hfail.
Qed.

(** ** Fetch of a batch *)

Lemma uniqueUsernames_NoDup (usernames : list string) :
  NoDup (uniqueUsernames usernames).
Proof. unfold uniqueUsernames. apply NoDup_elements. Qed.

Lemma elem_of_uniqueUsernames (usernames : list string) (username : string) :
  username ∈ uniqueUsernames usernames <-> username ∈ usernames.
Proof. unfold uniqueUsernames. rewrite elem_of_elements, elem_of_list_to_set. tauto. Qed.

Lemma batchKeys_NoDup (usernames : list string) : NoDup (batchKeys usernames).
Proof.
  assert (Inj eq eq (StringKey "Username")) as Hinj
    by (intros a b [= ->]; reflexivity).
  unfold batchKeys. apply (NoDup_fmap_2 (StringKey "Username")).
  apply uniqueUsernames_NoDup.
Qed.

(** The collecting loop never drops a username it has filed. *)
Lemma collectUsers_keeps (items : list Item) (usersByUsername collected : gmap string User)
    (key : string) :
  collectUsers items usersByUsername = Ok collected ->
  is_Some (usersByUsername !! key) -> is_Some (collected !! key).
Proof.
  revert usersByUsername.
  induction items as [|item items IH]; intros usersByUsername Hcollect Hkey.
  - injection Hcollect as <-. exact Hkey.
  - destruct item as [user|projection|]; simpl in Hcollect;
      [| |discriminate Hcollect];
      apply (IH _ Hcollect);
      match goal with
      | |- is_Some (<[?k := _]> _ !! key) =>
          destruct (decide (k = key)) as [<-|Hne];
            [rewrite lookup_insert_eq; eauto
            |rewrite lookup_insert_ne by exact Hne; exact Hkey]
      end.
Qed.

(** The loops of the batch fetch visit exactly the items the store
    returned. *)
Lemma elem_of_responseItems (responses : BatchGetResponses) (item : Item) :
  item ∈ responseItems responses <-> returnedItem responses item.
Proof.
  unfold responseItems, returnedItem.
  rewrite list_elem_of_In, in_concat. split.
  - intros (visited & Hvisited & Hitem).
    apply in_map_iff in Hvisited. destruct Hvisited as (page & <- & Hpage).
    apply in_concat in Hitem. destruct Hitem as (items & Hitems & Hitem).
    apply in_map_iff in Hitems. destruct Hitems as ([table items'] & <- & Hentry).
    exists page, table, items'.
    split; [|split]; apply list_elem_of_In; assumption.
  - intros (page & table & items & Hpage & Hentry & Hitem).
    apply list_elem_of_In in Hpage. apply list_elem_of_In in Hentry.
    apply list_elem_of_In in Hitem.
    exists (concat (map snd page)). split.
    + apply in_map_iff. exists page. auto.
    + apply in_concat. exists items. split; [|exact Hitem].
      apply in_map_iff. exists (table, items). auto.
Qed.

(** The collecting loop keeps the map within the table and files every item
    it meets. *)
Lemma collectUsers_within (table : gmap string User) (items : list Item) :
  (forall item, item ∈ items ->
     exists user, item = StoredUser user /\ table !! Username user = Some user) ->
  forall usersByUsername : gmap string User,
    (forall key user, usersByUsername !! key = Some user -> table !! key = Some user) ->
    exists collected : gmap string User,
      collectUsers items usersByUsername = Ok collected
      /\ (forall key user, collected !! key = Some user -> table !! key = Some user)
      /\ (forall user, StoredUser user ∈ items -> is_Some (collected !! Username user)).
Proof.
  induction items as [|item items IH]; intros Hitems usersByUsername Hwithin.
  - exists usersByUsername. split; [reflexivity|]. split; [exact Hwithin|].
    intros user Hin. apply elem_of_nil in Hin. contradiction.
  - destruct (Hitems item) as (user & -> & Huser); [left|].
    simpl.
    destruct (IH (fun i Hi => Hitems i (list_elem_of_further _ _ _ Hi))
                 (<[Username user := user]> usersByUsername))
      as (collected & Hcollect & Hin & Hfiled).
    { intros key user' Hlookup.
      destruct (decide (Username user = key)) as [<-|Hne].
      - rewrite lookup_insert_eq in Hlookup. congruence.
      - rewrite lookup_insert_ne in Hlookup by exact Hne. auto. }
    exists collected. split; [exact Hcollect|]. split; [exact Hin|].
    intros user' Hmember. apply elem_of_cons in Hmember.
    destruct Hmember as [[= ->]|Hrest]; [|auto].
    apply (collectUsers_keeps _ _ _ _ Hcollect). rewrite lookup_insert_eq. eauto.
Qed.

(** With an answer of the table in hand, the batch fetch returns the record
    of each requested username, in order. *)
Lemma collectUsers_answers (table : gmap string User) (usernames : list string)
    (responses : BatchGetResponses) :
  keyedByUsername table ->
  answers table usernames responses ->
  exists collected : gmap string User,
    collectUsers (responseItems responses) ∅ = Ok collected
    /\ map (fun username => default zeroUser (collected !! username)) usernames
       = usersOrZero table usernames.
Proof.
  intros Hkeyed [Hitems Hfound].
  destruct (collectUsers_within table (responseItems responses)
              (fun item Hitem => Hitems item (proj1 (elem_of_responseItems _ _) Hitem))
              ∅)
    as (collected & Hcollect & Hwithin & Hfiled).
  { intros key user Hlookup. rewrite lookup_empty in Hlookup. discriminate. }
  assert (forall username user, username ∈ usernames ->
            table !! username = Some user ->
            StoredUser user ∈ responseItems responses) as Hvisited
    by (intros username user Hin Hlookup; apply elem_of_responseItems; eauto).
  exists collected. split; [exact Hcollect|].
  apply map_ext_in. intros username Hin. apply list_elem_of_In in Hin.
  destruct (table !! username) as [user|] eqn:Htable.
  - destruct (Hfiled user (Hvisited username user Hin Htable)) as [user' Huser'].
    rewrite (Hkeyed username user Htable) in Huser'.
    rewrite Huser'. apply Hwithin in Huser'. congruence.
  - destruct (collected !! username) as [user|] eqn:Hcollected; [|reflexivity].
    apply Hwithin in Hcollected. congruence.
Qed.

Lemma run_GetUserListByUsername {W : Type} (client : StoreClient W) (w : W)
    (usernames : list string) :
  usernames <> [] ->
  calls (run client (GetUserListByUsername usernames) w)
    = [CallBatchGetItem [(UserTableName, batchKeys usernames)]]
  /\ forall responses,
       (batchGetItem client [(UserTableName, batchKeys usernames)] w).1 = Ok responses ->
       returned (run client (GetUserListByUsername usernames) w)
         = match collectUsers (responseItems responses) ∅ with
           | Err err => Err err
           | Ok collected =>
               Ok (map (fun username => default zeroUser (collected !! username))
                     usernames)
           end.
Proof.
  intros Hne. unfold GetUserListByUsername.
  destruct usernames as [|username usernames]; [contradiction|].
  cbn [length Nat.eqb]. fold (uniqueUsernames (username :: usernames)).
  fold (batchKeys (username :: usernames)). cbn [mbind Prog_mbind Prog_bind BatchGetItems run].
  destruct (batchGetItem client [(UserTableName, batchKeys (username :: usernames))] w)
    as [r w'].
  split.
  - destruct r as [responses|e]; cbn.
    + destruct (collectUsers (responseItems responses) ∅); reflexivity.
    + reflexivity.
  - intros responses [= ->]. cbn.
    destruct (collectUsers (responseItems responses) ∅); reflexivity.
Qed.

(** C6: for the empty list the batch fetch returns the empty result without
    a store call.  For any other list it issues exactly one batched get, whose
    keys are the usernames of the list without repetition; and when the store
    answers with the records it holds for them, in whatever pages and order,
    the result has one entry per element of the list, in the order of the
    list and as often as the list repeats it: the record of the username, or
    the zero user where the store holds none. *)
Theorem GetUserListByUsername_ordered :
  (GetUserListByUsername [] = Return (Ok [])
   /\ forall (W : Type) (client : StoreClient W) (w : W),
        run client (GetUserListByUsername []) w = mkOutcome (Ok []) w [])
  /\ forall (usernames : list string) (W : Type) (client : StoreClient W) (w : W),
       usernames <> [] ->
       NoDup (batchKeys usernames)
       /\ (forall username,
             StringKey "Username" username ∈ batchKeys usernames
             <-> username ∈ usernames)
       /\ calls (run client (GetUserListByUsername usernames) w)
            = [CallBatchGetItem [(UserTableName, batchKeys usernames)]]
       /\ forall (table : gmap string User) (responses : BatchGetResponses),
            (batchGetItem client [(UserTableName, batchKeys usernames)] w).1
              = Ok responses ->
            keyedByUsername table ->
            answers table usernames responses ->
            returned (run client (GetUserListByUsername usernames) w)
              = Ok (usersOrZero table usernames)
            /\ length (usersOrZero table usernames) = length usernames
            /\ forall i username, usernames !! i = Some username ->
                 usersOrZero table usernames !! i
                   = Some (default zeroUser (table !! username)).
Proof.
  split; [split; [reflexivity | intros; reflexivity]|].
  intros usernames W client w Hne.
  destruct (run_GetUserListByUsername client w usernames Hne) as [Hcalls Hreturned].
  split; [apply batchKeys_NoDup|]. split; [|split; [exact Hcalls|]].
  - intros username. rewrite <- elem_of_uniqueUsernames. unfold batchKeys.
    rewrite list_elem_of_In, in_map_iff. setoid_rewrite <- list_elem_of_In.
    split.
    + intros (x & [= ->] & Hx). exact Hx.
    + intros Hx. eauto.
  - intros table responses Hanswer Hkeyed Hanswers.
    rewrite (Hreturned responses Hanswer).
    destruct (collectUsers_answers table usernames responses Hkeyed Hanswers)
      as (collected & -> & ->).
    split; [reflexivity|]. split.
    + unfold usersOrZero. apply length_map.
    + intros i username Hi. unfold usersOrZero.
      change (map ?f usernames) with (f <$> usernames).
      rewrite list_lookup_fmap, Hi. reflexivity.
Qed.

(** On [aliceStore], the batch of "alice", "alice" and "carol" is [alice]
    twice and the zero user. *)
Lemma GetUserListByUsername_ordered_witness :
  returned (run MemStore (GetUserListByUsername ["alice"; "alice"; "carol"]) aliceStore)
    = Ok [alice; alice; zeroUser].
Proof.
  destruct (proj2 GetUserListByUsername_ordered ["alice"; "alice"; "carol"]
              Store MemStore aliceStore) as (_ & _ & _ & Hreturned);
    [discriminate|].
  destruct (Hreturned (users aliceStore) [[(UserTableName, [UserItem alice])]])
    as [Hresult _].
  - vm_compute. reflexivity.
  - intros key user Hlookup. unfold aliceStore in Hlookup. cbn [users] in Hlookup.
    apply lookup_singleton_Some in Hlookup.
    destruct Hlookup as [<- <-]. reflexivity.
  - split.
    + intros item Hitem. apply elem_of_responseItems in Hitem.
      apply list_elem_of_singleton in Hitem. subst item.
      exists alice. split; reflexivity.
    + intros username user _ Hlookup. unfold aliceStore in Hlookup.
      cbn [users] in Hlookup. apply lookup_singleton_Some in Hlookup.
      destruct Hlookup as [_ <-]. apply elem_of_responseItems.
      apply list_elem_of_singleton. reflexivity.
  - exact Hresult.
Defined.

(** ** The in-memory store answers a batched get *)

Lemma mapM_lookupItem (st : Store) (names : list string) :
  mapM (lookupItem st UserTableName) (map (StringKey "Username") names)
    = Ok (map (fun name => StoredUser <$> users st !! name) names).
Proof.
  induction names as [|name names IH]; [reflexivity|].
  cbn [map mapM]. rewrite IH. reflexivity.
Qed.

Lemma batchLookup_answers (st : Store) (usernames : list string) :
  keyedByUsername (users st) ->
  exists responses,
    batchLookup st [(UserTableName, batchKeys usernames)] = Ok responses
    /\ answers (users st) usernames responses.
Proof.
  intros Hkeyed.
  exists [[(UserTableName,
            omap id (map (fun name => StoredUser <$> users st !! name)
                       (uniqueUsernames usernames)))]].
  split.
  - unfold batchLookup, batchKeys. cbn [mapM]. rewrite mapM_lookupItem. reflexivity.
  - unfold answers. setoid_rewrite <- elem_of_responseItems.
    unfold responseItems. cbn [map snd concat]. rewrite !app_nil_r.
    split.
    + intros item Hitem. apply list_elem_of_omap in Hitem.
      destruct Hitem as (found & Hfound & Hid).
      apply list_elem_of_In, in_map_iff in Hfound.
      destruct Hfound as (name & <- & _). simpl in Hid.
      destruct (users st !! name) as [user|] eqn:Hname; [|discriminate].
      injection Hid as <-. exists user. split; [reflexivity|].
      rewrite (Hkeyed name user Hname). exact Hname.
    + intros username user Hin Hlookup. apply list_elem_of_omap.
      exists (Some (StoredUser user)). split; [|reflexivity].
      apply list_elem_of_In, in_map_iff. exists username.
      rewrite Hlookup. split; [reflexivity|].
      apply list_elem_of_In, elem_of_uniqueUsernames, Hin.
Qed.

(** On a store that files every user under its username, the batch fetch
    returns, in the order of the list, the record of each username or the
    zero user, and leaves the store as it was. *)
Lemma GetUserListByUsername_MemStore (st : Store) (usernames : list string) :
  keyedByUsername (users st) ->
  returned (run MemStore (GetUserListByUsername usernames) st)
    = Ok (usersOrZero (users st) usernames).
Proof.
  intros Hkeyed. destruct usernames as [|username usernames]; [reflexivity|].
  destruct (run_GetUserListByUsername MemStore st (username :: usernames))
    as [_ Hreturned]; [discriminate|].
  destruct (batchLookup_answers st (username :: usernames) Hkeyed)
    as (responses & Hlookup & Hanswers).
  rewrite (Hreturned responses) by exact Hlookup.
  destruct (collectUsers_answers _ _ _ Hkeyed Hanswers) as (collected & -> & ->).
  reflexivity.
Qed.

(** ** The in-memory store end to end *)

(** A transaction that fails leaves the store as it was. *)
Lemma transact_failed_unchanged (st : Store) (input : TransactWriteItemsInput)
    (e : error) :
  (transact st input).1 = Some e -> (transact st input).2 = st.
Proof.
  unfold transact. destruct (mapM (checkOperation st) input) as [checks|e'].
  - destruct (forallb id checks); [discriminate | reflexivity].
  - reflexivity.
Qed.

(** Created on the empty store, [alice] is found again by username and by
    email. *)
Example create_then_fetch :
  let created := run MemStore (PutUser ValidateNotBlank alice) (mkStore ∅ ∅) in
  returned created = None
  /\ returned (run MemStore (GetUserByUsername "alice") (world created)) = Ok alice
  /\ returned (run MemStore (GetUserByEmail "alice@example.com") (world created))
       = Ok alice.
Proof. vm_compute. auto. Qed.

(** When [alice] moves to [aliceMoved], the old email is released, the new
    one leads to her record, and the record keeps the password hash, takes the
    new image and loses the bio. *)
Example update_moves_projection :
  let updated := run MemStore (UpdateUser ValidateNotBlank alice aliceMoved) aliceStore in
  let moved :=
    mkUser "alice" "alice@example.org" (Some ["x"%byte; "y"%byte])
      "https://example.org/a.png" "" in
  returned updated = None
  /\ returned (run MemStore (GetUserByEmail "alice@example.com") (world updated))
       = Err (InputError "email" "not found")
  /\ returned (run MemStore (GetUserByEmail "alice@example.org") (world updated))
       = Ok moved
  /\ returned (run MemStore (GetUserByUsername "alice") (world updated)) = Ok moved.
Proof. vm_compute. auto. Qed.

(** When only the bio changes, the diff is the one [SET] of the bio. *)
Example bio_only_diff :
  buildUserUpdateExpression alice
    (mkUser "alice" "alice@example.com" None "" "goodbye")
    = Ok (mkExpression (Some [SET "Bio" (StringValue "goodbye")])).
Proof. reflexivity. Qed.

(** * Further properties of the diff engine *)

Lemma diffOperations_differs (oldUser newUser : User) :
  diffOperations oldUser newUser <> [] <-> someFieldDiffers oldUser newUser.
Proof.
  unfold someFieldDiffers. split.
  - intros Hne. destruct (diffOperations oldUser newUser) as [|op ops] eqn:Hops;
      [contradiction|].
    assert (op ∈ diffOperations oldUser newUser) as Hin by (rewrite Hops; left).
    apply diffOperations_cases in Hin.
    destruct Hin as [[H _]|[(h & Hh & Hd & _)|[[H _]|[H _]]]]; eauto 6.
  - intros Hdiffers Hnil.
    assert (forall op, op ∉ diffOperations oldUser newUser) as Hnone
      by (intros op; rewrite Hnil; apply not_elem_of_nil).
    destruct Hdiffers as [H|[(h & Hh & Hd)|[H|H]]].
    + apply (Hnone (SET "Email" (StringValue (Email newUser)))).
      apply elem_of_diffOperations. left. apply elem_of_emailOperations. auto.
    + apply (Hnone (SET "PasswordHash" (BytesValue h))).
      apply elem_of_diffOperations. right; left.
      apply elem_of_credentialOperations. eauto.
    + destruct (decide (Image newUser = "")) as [Hempty|Hset].
      * apply (Hnone (REMOVE "Image")). apply elem_of_diffOperations.
        right; right; left. apply elem_of_optionalOperations. auto.
      * apply (Hnone (SET "Image" (StringValue (Image newUser)))).
        apply elem_of_diffOperations. right; right; left.
        apply elem_of_optionalOperations. auto.
    + destruct (decide (Bio newUser = "")) as [Hempty|Hset].
      * apply (Hnone (REMOVE "Bio")). apply elem_of_diffOperations.
        right; right; right. apply elem_of_optionalOperations. auto.
      * apply (Hnone (SET "Bio" (StringValue (Bio newUser)))).
        apply elem_of_diffOperations. right; right; right.
        apply elem_of_optionalOperations. auto.
Qed.

Lemma someFieldDiffers_dec (oldUser newUser : User) :
  someFieldDiffers oldUser newUser \/ ~ someFieldDiffers oldUser newUser.
Proof.
  rewrite <- diffOperations_differs.
  destruct (diffOperations oldUser newUser); [right|left]; congruence.
Qed.

(** X1: the diff engine reports "no field changed" (an expression whose
    update part is nil) exactly when the emails are equal, the new password
    hash is nil or has the bytes of the old one, and image and bio are equal;
    otherwise the expression has an update part with at least one operation. *)
Theorem diff_noop_iff (oldUser newUser : User) :
  exists expr,
    buildUserUpdateExpression oldUser newUser = Ok expr
    /\ (exprUpdate expr = None
        <-> Email oldUser = Email newUser
            /\ (PasswordHash newUser = None
                \/ bytes_Equal (PasswordHash oldUser) (PasswordHash newUser) = true)
            /\ Image oldUser = Image newUser
            /\ Bio oldUser = Bio newUser)
    /\ (exprUpdate expr <> None -> operations expr <> []).
Proof.
  destruct (buildUserUpdateExpression_operations oldUser newUser)
    as (expr & Hbuild & Hops & Hnone).
  exists expr. split; [exact Hbuild|]. split.
  - rewrite Hnone. split.
    + intros Hnil.
      assert (~ someFieldDiffers oldUser newUser) as Hsame
        by (rewrite <- diffOperations_differs; tauto).
      unfold someFieldDiffers in Hsame.
      split; [|split; [|split]].
      * destruct (decide (Email oldUser = Email newUser)); tauto.
      * destruct (PasswordHash newUser) as [hash|] eqn:Hhash; [right|left; reflexivity].
        destruct (bytes_Equal (PasswordHash oldUser) (Some hash)) eqn:Heq;
          [reflexivity|].
        apply bytes_Equal_false in Heq. exfalso. apply Hsame. eauto.
      * destruct (decide (Image oldUser = Image newUser)); tauto.
      * destruct (decide (Bio oldUser = Bio newUser)); tauto.
    + intros (Hemail & Hhash & Himage & Hbio).
      destruct (diffOperations oldUser newUser) as [|op ops] eqn:Hdiff;
        [reflexivity|].
      exfalso.
      assert (someFieldDiffers oldUser newUser) as Hdiffers
        by (apply diffOperations_differs; rewrite Hdiff; discriminate).
      destruct Hdiffers as [H|[(h & Hh & Hd)|[H|H]]]; try contradiction.
      destruct Hhash as [Hnil|Hequal]; [congruence|].
      rewrite Hh in Hequal. apply bytes_eqb_eq in Hequal. contradiction.
  - rewrite Hops. intros Hsome Hnil. apply Hsome, Hnone, Hnil.
Qed.

(** X2: the operations of the built expression are its [REMOVE]
    operations followed by its [SET] operations; the removes name image and
    bio, the sets name email, password hash, image and bio, each kind in that
    order; no field is named twice, and the username, the key of the record,
    is never named. *)
Theorem diff_names (oldUser newUser : User) :
  exists expr,
    buildUserUpdateExpression oldUser newUser = Ok expr
    /\ (exists removes sets,
          operations expr = removes ++ sets
          /\ (forall op, op ∈ removes -> isRemove op = true)
          /\ (forall op, op ∈ sets -> isRemove op = false)
          /\ sublist (map operationName removes) ["Image"; "Bio"]
          /\ sublist (map operationName sets) diffNames)
    /\ NoDup (map operationName (operations expr))
    /\ forall op, op ∈ operations expr -> operationName op <> "Username".
Proof.
  destruct (buildUserUpdateExpression_operations oldUser newUser)
    as (expr & Hbuild & Hops & _).
  exists expr. split; [exact Hbuild|]. rewrite Hops. split; [|split].
  - exists (List.filter isRemove (fieldOperations oldUser newUser)),
      (List.filter (fun op => negb (isRemove op)) (fieldOperations oldUser newUser)).
    split; [reflexivity|]. split; [|split].
    + intros op Hop. apply list_elem_of_In, filter_In in Hop. tauto.
    + intros op Hop. apply list_elem_of_In, filter_In in Hop.
      destruct Hop as [_ Hop]. destruct (isRemove op); [discriminate|reflexivity].
    + unfold fieldOperations, emailOperations, credentialOperations,
        optionalOperations, diffNames.
      destruct (PasswordHash newUser) as [hash|];
        repeat case_decide; cbn;
        split;
        repeat first [apply sublist_nil | apply sublist_skip | apply sublist_cons].
  - unfold diffOperations, fieldOperations, emailOperations, credentialOperations,
      optionalOperations.
    destruct (PasswordHash newUser) as [hash|];
      repeat case_decide; cbn;
      apply (bool_decide_unpack _); vm_compute; exact I.
  - intros op Hop Hname. apply diffOperations_cases in Hop.
    destruct Hop as [[_ ->]|[(h & _ & _ & ->)|[[_ [[_ ->]|[_ ->]]]|[_ [[_ ->]|[_ ->]]]]]];
      discriminate Hname.
Qed.

(** X3: the diff holds a [SET] of the email exactly when the emails differ,
    and then its value is the new email; it never holds a [REMOVE] of the
    email, even when the new email is empty. *)
Theorem email_diff (oldUser newUser : User) :
  exists expr,
    buildUserUpdateExpression oldUser newUser = Ok expr
    /\ (forall v, SET "Email" v ∈ operations expr
          <-> Email oldUser <> Email newUser /\ v = StringValue (Email newUser))
    /\ REMOVE "Email" ∉ operations expr.
Proof.
  destruct (buildUserUpdateExpression_operations oldUser newUser)
    as (expr & Hbuild & Hops & _).
  exists expr. split; [exact Hbuild|]. rewrite Hops. split; [split|].
  - intros Hin. apply diffOperations_cases in Hin.
    destruct Hin as [[Hne [= ->]]|[(h & _ & _ & [=])|[[_ [[_ [=]]|[_ [=]]]]|[_ [[_ [=]]|[_ [=]]]]]]].
    auto.
  - intros [Hne ->]. apply elem_of_diffOperations. left.
    apply elem_of_emailOperations. auto.
  - intros Hin. apply diffOperations_cases in Hin.
    destruct Hin as [[_ [=]]|[(h & _ & _ & [=])|[[_ [[_ [=]]|[_ [=]]]]|[_ [[_ [=]]|[_ [=]]]]]]].
Qed.

Lemma default_storedBytes (b : list byte) : default [] (storedBytes b) = b.
Proof. destruct b; reflexivity. Qed.

(** The record the operations of the diff make of the old one. *)
Lemma applyDiff_fields (oldUser newUser : User) :
  let updated := foldl applyToUser oldUser (diffOperations oldUser newUser) in
  Username updated = Username oldUser
  /\ Email updated = Email newUser
  /\ Image updated = Image newUser
  /\ Bio updated = Bio newUser
  /\ (PasswordHash newUser = None -> PasswordHash updated = PasswordHash oldUser)
  /\ (forall hash, PasswordHash newUser = Some hash ->
        default [] (PasswordHash updated) = hash).
Proof.
  unfold diffOperations, fieldOperations, emailOperations, credentialOperations,
    optionalOperations.
  destruct (PasswordHash newUser) as [hash|] eqn:Hhash;
    repeat case_decide; cbn -[storedBytes];
    repeat split; try congruence;
    try (intros h [= <-]; assumption);
    try (intros h [= <-]; apply default_storedBytes).
Qed.

(** X4: applied in order to the old record, the operations of the diff give
    a record with the old username and the new email, image and bio; its
    password hash is the old one when the new hash is nil, and has the bytes
    of the new hash otherwise. *)
Theorem diff_carries_old_to_new (oldUser newUser : User) :
  exists expr,
    buildUserUpdateExpression oldUser newUser = Ok expr
    /\ let updated := foldl applyToUser oldUser (operations expr) in
       Username updated = Username oldUser
       /\ Email updated = Email newUser
       /\ Image updated = Image newUser
       /\ Bio updated = Bio newUser
       /\ (PasswordHash newUser = None ->
           PasswordHash updated = PasswordHash oldUser)
       /\ (forall hash, PasswordHash newUser = Some hash ->
             default [] (PasswordHash updated) = hash).
Proof.
  destruct (buildUserUpdateExpression_operations oldUser newUser)
    as (expr & Hbuild & Hops & _).
  exists expr. split; [exact Hbuild|]. rewrite Hops.
  apply applyDiff_fields.
Qed.

(** * Further properties of Update and Create *)

(** Update returns without a store call, or the new user is valid and some
    field differs. *)
Lemma UpdateUser_quiet_or_due (Validate : User -> option error)
    (oldUser newUser : User) :
  (forall (W : Type) (client : StoreClient W) (w : W),
     exists r, run client (UpdateUser Validate oldUser newUser) w = mkOutcome r w [])
  \/ (Validate newUser = None /\ someFieldDiffers oldUser newUser).
Proof.
  pose proof (UpdateUser_cases Validate oldUser newUser) as Hcases.
  destruct (Validate newUser) as [e|].
  - left. intros W client w. rewrite Hcases. eexists. reflexivity.
  - destruct Hcases as (expr & _ & _ & Hnone & Hrun).
    destruct (exprUpdate expr) as [update|].
    + right. split; [reflexivity|].
      apply diffOperations_differs. intros Hnil. apply Hnone in Hnil. discriminate.
    + left. intros W client w. rewrite Hrun. eexists. reflexivity.
Qed.

(** X5: whatever the validator, the store client and the world, Update
    issues at most one store call.  It issues none when the new user fails
    validation (the validation error is returned) and when no field differs
    (success is returned); otherwise it issues one write transaction and
    returns what the transaction returns. *)
Theorem UpdateUser_at_most_one_call (Validate : User -> option error)
    (oldUser newUser : User) (W : Type) (client : StoreClient W) (w : W) :
  (exists e, Validate newUser = Some e
             /\ run client (UpdateUser Validate oldUser newUser) w
                = mkOutcome (Some e) w [])
  \/ (Validate newUser = None
      /\ ~ someFieldDiffers oldUser newUser
      /\ run client (UpdateUser Validate oldUser newUser) w = mkOutcome None w [])
  \/ (Validate newUser = None
      /\ someFieldDiffers oldUser newUser
      /\ exists input,
           input <> []
           /\ run client (UpdateUser Validate oldUser newUser) w
              = mkOutcome (transactWriteItems client input w).1
                          (transactWriteItems client input w).2
                          [CallTransactWriteItems input]).
Proof.
  pose proof (UpdateUser_cases Validate oldUser newUser) as Hcases.
  destruct (Validate newUser) as [e|].
  - left. exists e. rewrite Hcases. auto.
  - right. destruct Hcases as (expr & _ & _ & Hnone & Hrun).
    destruct (exprUpdate expr) as [update|].
    + right. split; [reflexivity|]. split.
      * apply diffOperations_differs. intros Hnil. apply Hnone in Hnil. discriminate.
      * eexists. split; [|rewrite Hrun; apply run_TransactWriteItems].
        intros Hnil. apply app_eq_nil in Hnil. destruct Hnil as [_ [=]].
    + left. split; [reflexivity|]. split.
      * rewrite <- diffOperations_differs. intros Hne. apply Hne, Hnone. reflexivity.
      * rewrite Hrun. reflexivity.
Qed.

(** X6: when the new user passes validation, keeps the email and differs in
    another field, the one transaction of Update holds the update of the user
    record and nothing else: the projection table is not touched. *)
Theorem UpdateUser_same_email (Validate : User -> option error)
    (oldUser newUser : User) :
  Validate newUser = None ->
  Email oldUser = Email newUser ->
  someFieldDiffers oldUser newUser ->
  exists expr,
    buildUserUpdateExpression oldUser newUser = Ok expr
    /\ exprUpdate expr <> None
    /\ forall (W : Type) (client : StoreClient W) (w : W),
         calls (run client (UpdateUser Validate oldUser newUser) w)
           = [CallTransactWriteItems
                [Update UserTableName (StringKey "Username" (Username oldUser))
                   "attribute_exists(Username)" expr]].
Proof.
  intros Hvalid Hemail Hdiffers.
  pose proof (UpdateUser_cases Validate oldUser newUser) as Hcases.
  rewrite Hvalid in Hcases.
  destruct Hcases as (expr & Hbuild & _ & Hnone & Hrun).
  exists expr. split; [exact Hbuild|].
  apply diffOperations_differs in Hdiffers.
  destruct (exprUpdate expr) as [update|].
  - split; [discriminate|]. intros W client w.
    rewrite Hrun, run_TransactWriteItems. case_decide; [reflexivity|contradiction].
  - exfalso. apply Hdiffers, Hnone. reflexivity.
Qed.

(** [alice] changes her bio only: one update, no projection operation. *)
Lemma UpdateUser_same_email_witness :
  exists expr,
    buildUserUpdateExpression alice
      (mkUser "alice" "alice@example.com" None "" "goodbye") = Ok expr
    /\ exprUpdate expr <> None
    /\ forall (W : Type) (client : StoreClient W) (w : W),
         calls (run client
                  (UpdateUser ValidateNotBlank alice
                     (mkUser "alice" "alice@example.com" None "" "goodbye")) w)
           = [CallTransactWriteItems
                [Update UserTableName (StringKey "Username" "alice")
                   "attribute_exists(Username)" expr]].
Proof.
  apply (UpdateUser_same_email ValidateNotBlank alice
           (mkUser "alice" "alice@example.com" None "" "goodbye"));
    [reflexivity | reflexivity |].
  right; right; right. discriminate.
Defined.

(** ** Create on the in-memory store *)

Lemma present_users (st : Store) (key : string) :
  present st UserTableName key = true <-> is_Some (users st !! key).
Proof. apply bool_decide_eq_true. Qed.

Lemma present_emails (st : Store) (key : string) :
  present st EmailUserTableName key = true <-> is_Some (emails st !! key).
Proof. apply bool_decide_eq_true. Qed.

Lemma absent_users (st : Store) (key : string) :
  present st UserTableName key = false <-> users st !! key = None.
Proof.
  rewrite <- not_true_iff_false, present_users, <- eq_None_not_Some. tauto.
Qed.

Lemma absent_emails (st : Store) (key : string) :
  present st EmailUserTableName key = false <-> emails st !! key = None.
Proof.
  rewrite <- not_true_iff_false, present_emails, <- eq_None_not_Some. tauto.
Qed.

(** The transaction of Create on the in-memory store. *)
Lemma transact_createTransaction (st : Store) (user : User) :
  transact st (createTransaction user)
    = if negb (present st UserTableName (Username user))
         && negb (present st EmailUserTableName (Email user))
      then (None,
            mkStore (<[Username user := asStored user]> (users st))
                    (<[Email user := projectionOf user]> (emails st)))
      else (Some ConstraintViolation, st).
Proof.
  unfold transact, createTransaction. cbn.
  destruct (bool_decide (is_Some (users st !! Username user))),
    (bool_decide (is_Some (emails st !! Email user))); reflexivity.
Qed.

Lemma run_PutUser_MemStore (Validate : User -> option error) (user : User)
    (st : Store) :
  Validate user = None ->
  run MemStore (PutUser Validate user) st
    = mkOutcome (transact st (createTransaction user)).1
                (transact st (createTransaction user)).2
                [CallTransactWriteItems (createTransaction user)].
Proof.
  intros Hvalid. rewrite (PutUser_valid Validate user MemStore st Hvalid).
  apply run_TransactWriteItems.
Qed.

(** Create leaves the store as it was, or adds the two records on free keys. *)
Lemma PutUser_world (Validate : User -> option error) (user : User) (st : Store) :
  world (run MemStore (PutUser Validate user) st) = st
  \/ (users st !! Username user = None
      /\ emails st !! Email user = None
      /\ world (run MemStore (PutUser Validate user) st)
         = mkStore (<[Username user := asStored user]> (users st))
                   (<[Email user := projectionOf user]> (emails st))).
Proof.
  destruct (Validate user) as [e|] eqn:Hvalid.
  - left. rewrite (PutUser_invalid Validate user e Hvalid). reflexivity.
  - rewrite (run_PutUser_MemStore Validate user st Hvalid),
      transact_createTransaction.
    destruct (present st UserTableName (Username user)) eqn:Huser;
      [left; reflexivity|].
    destruct (present st EmailUserTableName (Email user)) eqn:Hemail;
      [left; reflexivity|].
    right. apply absent_users in Huser. apply absent_emails in Hemail. auto.
Qed.

Lemma run_GetUserByUsername_MemStore (st : Store) (username : string) :
  returned (run MemStore (GetUserByUsername username) st)
    = match users st !! username with
      | Some user => Ok user
      | None => Err (InputError "username" "not found")
      end.
Proof.
  unfold GetUserByUsername. cbn.
  destruct (users st !! username); reflexivity.
Qed.

(** X7: on the in-memory store, a user that passes validation, whose
    username and email are not empty and are both free, is created with
    success, and is then returned by the fetch by its username and by the
    fetch by its email as the store reads it back: with the same username,
    email, image and bio and the same password hash, except that a hash of
    length zero comes back as nil.  A user whose hash is not an empty slice
    comes back as it went in. *)
Theorem PutUser_then_fetch (Validate : User -> option error) (user : User)
    (st : Store) :
  Validate user = None ->
  Username user <> "" ->
  Email user <> "" ->
  users st !! Username user = None ->
  emails st !! Email user = None ->
  returned (run MemStore (PutUser Validate user) st) = None
  /\ returned (run MemStore (GetUserByUsername (Username user))
                 (world (run MemStore (PutUser Validate user) st)))
     = Ok (asStored user)
  /\ returned (run MemStore (GetUserByEmail (Email user))
                 (world (run MemStore (PutUser Validate user) st)))
     = Ok (asStored user)
  /\ (PasswordHash user <> Some [] -> asStored user = user)
  /\ (PasswordHash user = Some [] -> PasswordHash (asStored user) = None).
Proof.
  intros Hvalid Hname Hemail Huser Hprojection.
  rewrite (run_PutUser_MemStore Validate user st Hvalid), transact_createTransaction.
  apply absent_users in Huser. apply absent_emails in Hprojection.
  rewrite Huser, Hprojection. cbn [negb andb returned world fst snd].
  split; [reflexivity|]. split; [|split; [|split]].
  - rewrite run_GetUserByUsername_MemStore. cbn [users].
    rewrite lookup_insert_eq. reflexivity.
  - rewrite (run_GetUserByEmail_MemStore _ _ Hemail). cbn [users emails].
    rewrite lookup_insert_eq. cbn [projectionOf UsernameOf].
    destruct (String.eqb_spec (Username user) ""); [contradiction|].
    rewrite lookup_insert_eq. reflexivity.
  - intros Hhash. destruct user as [name email [[|b hash]|] image bio];
      [contradiction|reflexivity..].
  - intros Hhash. unfold asStored. rewrite Hhash. reflexivity.
Qed.

(** [bob], with an email of his own, is created on [aliceStore] and found. *)
Lemma PutUser_then_fetch_witness :
  returned (run MemStore
              (GetUserByEmail "bob@example.com")
              (world (run MemStore
                        (PutUser ValidateNotBlank
                           (mkUser "bob" "bob@example.com" None "" ""))
                        aliceStore)))
    = Ok (mkUser "bob" "bob@example.com" None "" "").
Proof.
  refine (proj1 (proj2 (proj2 (PutUser_then_fetch ValidateNotBlank
            (mkUser "bob" "bob@example.com" None "" "") aliceStore
            eq_refl _ _ eq_refl eq_refl)))); discriminate.
Defined.

(** X8: on the in-memory store, when the username or the email of a valid
    user is taken, Create issues its one transaction, returns the store's
    cancellation error, and leaves both tables as they were: no user record
    and no projection record is written. *)
Theorem PutUser_taken (Validate : User -> option error) (user : User) (st : Store) :
  Validate user = None ->
  is_Some (users st !! Username user) \/ is_Some (emails st !! Email user) ->
  run MemStore (PutUser Validate user) st
    = mkOutcome (Some ConstraintViolation) st
        [CallTransactWriteItems (createTransaction user)].
Proof.
  intros Hvalid Htaken.
  rewrite (run_PutUser_MemStore Validate user st Hvalid), transact_createTransaction.
  destruct Htaken as [Huser|Hemail].
  - apply present_users in Huser. rewrite Huser. reflexivity.
  - apply present_emails in Hemail. rewrite Hemail, andb_false_r. reflexivity.
Qed.

(** [bob] asks for the email of [alice]: nothing is written. *)
Lemma PutUser_taken_witness :
  run MemStore (PutUser ValidateNotBlank bob) aliceStore
    = mkOutcome (Some ConstraintViolation) aliceStore
        [CallTransactWriteItems (createTransaction bob)].
Proof.
  apply (PutUser_taken ValidateNotBlank bob aliceStore eq_refl).
  right. exists (mkEmailUser "alice@example.com" "alice"). reflexivity.
Defined.

(** X9: on the in-memory store Create never replaces or removes a record:
    whatever the validator and the user, every user record and every
    projection record of the store is still there afterwards, unchanged. *)
Theorem PutUser_never_overwrites (Validate : User -> option error) (user : User)
    (st : Store) :
  (forall username existing,
     users st !! username = Some existing ->
     users (world (run MemStore (PutUser Validate user) st)) !! username
       = Some existing)
  /\ (forall email existing,
        emails st !! email = Some existing ->
        emails (world (run MemStore (PutUser Validate user) st)) !! email
          = Some existing).
Proof.
  destruct (PutUser_world Validate user st) as [->|(Huser & Hemail & ->)];
    [auto|].
  cbn [users emails]. split.
  - intros username existing Hexisting.
    rewrite lookup_insert_ne; [exact Hexisting|congruence].
  - intros email existing Hexisting.
    rewrite lookup_insert_ne; [exact Hexisting|congruence].
Qed.

(** X10: on the in-memory store Create keeps the two tables consistent:
    if every user is filed under its username, every projection record points
    to a user with that email and every user has its projection record, the
    same holds after Create, whether it succeeds or fails. *)
Theorem PutUser_consistent (Validate : User -> option error) (user : User)
    (st : Store) :
  consistent st ->
  consistent (world (run MemStore (PutUser Validate user) st)).
Proof.
  intros (Hkeyed & Hprojections & Husers).
  destruct (PutUser_world Validate user st) as [->|(Huser & Hemail & ->)];
    [split; [|split]; assumption|].
  split; [|split]; cbn [users emails].
  - intros key existing Hlookup.
    destruct (decide (Username user = key)) as [<-|Hne].
    + rewrite lookup_insert_eq in Hlookup. injection Hlookup as <-. reflexivity.
    + rewrite lookup_insert_ne in Hlookup by exact Hne. eauto.
  - intros email projection Hlookup.
    destruct (decide (Email user = email)) as [<-|Hne].
    + rewrite lookup_insert_eq in Hlookup. injection Hlookup as <-.
      split; [reflexivity|]. exists (asStored user). cbn.
      rewrite lookup_insert_eq. auto.
    + rewrite lookup_insert_ne in Hlookup by exact Hne.
      destruct (Hprojections email projection Hlookup) as (Hkey & owner & Howner & Hmail).
      split; [exact Hkey|]. exists owner. split; [|exact Hmail].
      rewrite lookup_insert_ne; [exact Howner|congruence].
  - intros username existing Hlookup.
    destruct (decide (Username user = username)) as [<-|Hne].
    + rewrite lookup_insert_eq in Hlookup. injection Hlookup as <-.
      exists (projectionOf user). cbn [asStored Email].
      rewrite lookup_insert_eq. auto.
    + rewrite lookup_insert_ne in Hlookup by exact Hne.
      destruct (Husers username existing Hlookup) as (projection & Hprojection & Hname).
      exists projection. split; [|exact Hname].
      rewrite lookup_insert_ne; [exact Hprojection|congruence].
Qed.

Lemma aliceStore_consistent : consistent aliceStore.
Proof.
  unfold consistent, keyedByUsername, aliceStore. cbn [users emails].
  split; [|split].
  - intros key user Hlookup. apply lookup_singleton_Some in Hlookup.
    destruct Hlookup as [<- <-]. reflexivity.
  - intros email projection Hlookup. apply lookup_singleton_Some in Hlookup.
    destruct Hlookup as [<- <-]. split; [reflexivity|]. exists alice.
    split; reflexivity.
  - intros username user Hlookup. apply lookup_singleton_Some in Hlookup.
    destruct Hlookup as [<- <-].
    exists (mkEmailUser "alice@example.com" "alice"). split; reflexivity.
Qed.

(** Creating a second user on [aliceStore] leaves a consistent store. *)
Lemma PutUser_consistent_witness :
  consistent (world (run MemStore
                       (PutUser ValidateNotBlank
                          (mkUser "bob" "bob@example.com" None "" ""))
                       aliceStore)).
Proof.
  exact (PutUser_consistent ValidateNotBlank
           (mkUser "bob" "bob@example.com" None "" "") aliceStore
           aliceStore_consistent).
Defined.

(** ** Update on the in-memory store *)

(** The record an update of the user table leaves under the username of
    [oldUser]. *)
Lemma transact_userUpdate (st : Store) (oldUser : User) (expr : Expression) :
  transact st [userUpdate oldUser expr]
    = if present st UserTableName (Username oldUser)
      then (None,
            mkStore
              (<[Username oldUser :=
                   foldl applyToUser
                     (default (mkUser (Username oldUser) "" None "" "")
                        (users st !! Username oldUser))
                     (operations expr)]> (users st))
              (emails st))
      else (Some ConstraintViolation, st).
Proof.
  unfold transact, userUpdate, present. cbn.
  destruct (bool_decide (is_Some (users st !! Username oldUser))); reflexivity.
Qed.

Lemma transact_swapTransaction (st : Store) (oldUser newUser : User)
    (expr : Expression) :
  transact st (projectionSwap oldUser newUser ++ [userUpdate oldUser expr])
    = if negb (present st EmailUserTableName (Email newUser))
         && present st EmailUserTableName (Email oldUser)
         && present st UserTableName (Username oldUser)
      then (None,
            mkStore
              (<[Username oldUser :=
                   foldl applyToUser
                     (default (mkUser (Username oldUser) "" None "" "")
                        (users st !! Username oldUser))
                     (operations expr)]> (users st))
              (delete (Email oldUser)
                 (<[Email newUser := projectionOf newUser]> (emails st))))
      else (Some ConstraintViolation, st).
Proof.
  unfold transact, projectionSwap, userUpdate, present. cbn.
  destruct (bool_decide (is_Some (emails st !! Email newUser))),
    (bool_decide (is_Some (emails st !! Email oldUser))),
    (bool_decide (is_Some (users st !! Username oldUser))); reflexivity.
Qed.

(** The run of Update on the in-memory store when a transaction is due. *)
Lemma run_UpdateUser_MemStore (Validate : User -> option error)
    (oldUser newUser : User) (st : Store) :
  Validate newUser = None ->
  someFieldDiffers oldUser newUser ->
  exists expr,
    operations expr = diffOperations oldUser newUser
    /\ run MemStore (UpdateUser Validate oldUser newUser) st
       = let input :=
           (if decide (Email oldUser = Email newUser) then []
            else projectionSwap oldUser newUser) ++ [userUpdate oldUser expr] in
         mkOutcome (transact st input).1 (transact st input).2
           [CallTransactWriteItems input].
Proof.
  intros Hvalid Hdiffers.
  pose proof (UpdateUser_cases Validate oldUser newUser) as Hcases.
  rewrite Hvalid in Hcases.
  destruct Hcases as (expr & _ & Hops & Hnone & Hrun).
  exists expr. split; [exact Hops|].
  apply diffOperations_differs in Hdiffers.
  destruct (exprUpdate expr) as [update|].
  - rewrite Hrun. apply run_TransactWriteItems.
  - exfalso. apply Hdiffers, Hnone. reflexivity.
Qed.

(** Update leaves the store as it was, or swaps the projection record and
    rewrites the user record, or rewrites the user record alone. *)
Lemma UpdateUser_world (Validate : User -> option error) (oldUser newUser : User)
    (st : Store) :
  let updated :=
    foldl applyToUser
      (default (mkUser (Username oldUser) "" None "" "")
         (users st !! Username oldUser))
      (diffOperations oldUser newUser) in
  world (run MemStore (UpdateUser Validate oldUser newUser) st) = st
  \/ (Email oldUser <> Email newUser
      /\ emails st !! Email newUser = None
      /\ is_Some (emails st !! Email oldUser)
      /\ is_Some (users st !! Username oldUser)
      /\ world (run MemStore (UpdateUser Validate oldUser newUser) st)
         = mkStore (<[Username oldUser := updated]> (users st))
             (delete (Email oldUser)
                (<[Email newUser := projectionOf newUser]> (emails st))))
  \/ (Email oldUser = Email newUser
      /\ is_Some (users st !! Username oldUser)
      /\ world (run MemStore (UpdateUser Validate oldUser newUser) st)
         = mkStore (<[Username oldUser := updated]> (users st)) (emails st)).
Proof.
  intros updated. subst updated.
  destruct (UpdateUser_quiet_or_due Validate oldUser newUser)
    as [Hquiet|[Hvalid Hdiffers]].
  - left. destruct (Hquiet Store MemStore st) as [r ->]. reflexivity.
  - destruct (run_UpdateUser_MemStore Validate oldUser newUser st Hvalid Hdiffers)
      as (expr & Hops & ->).
    cbn [world]. case_decide as Hemail.
    + cbn [app]. rewrite transact_userUpdate, Hops.
      destruct (present st UserTableName (Username oldUser)) eqn:Huser;
        [|left; reflexivity].
      right; right. apply present_users in Huser. auto.
    + rewrite transact_swapTransaction, Hops.
      destruct (present st EmailUserTableName (Email newUser)) eqn:Hnew;
        [left; reflexivity|].
      destruct (present st EmailUserTableName (Email oldUser)) eqn:Hold;
        [|left; reflexivity].
      destruct (present st UserTableName (Username oldUser)) eqn:Huser;
        [|left; reflexivity].
      right; left. apply absent_emails in Hnew. apply present_emails in Hold.
      apply present_users in Huser. auto.
Qed.

(** X11: on the in-memory store, when a valid new user with the same
    username takes a free email in place of the stored record's, Update
    succeeds; afterwards the old email is not found, and the new email and the
    username both lead to the same record, which has the new email, image and
    bio and the new password hash's bytes, or the old hash when the new one is
    nil. *)
Theorem UpdateUser_moves_email (Validate : User -> option error)
    (oldUser newUser : User) (st : Store) :
  Validate newUser = None ->
  Username newUser = Username oldUser ->
  Username oldUser <> "" ->
  Email oldUser <> "" ->
  Email newUser <> "" ->
  Email oldUser <> Email newUser ->
  users st !! Username oldUser = Some oldUser ->
  is_Some (emails st !! Email oldUser) ->
  emails st !! Email newUser = None ->
  let after := world (run MemStore (UpdateUser Validate oldUser newUser) st) in
  returned (run MemStore (UpdateUser Validate oldUser newUser) st) = None
  /\ returned (run MemStore (GetUserByEmail (Email oldUser)) after)
       = Err (InputError "email" "not found")
  /\ exists updated,
       returned (run MemStore (GetUserByEmail (Email newUser)) after) = Ok updated
       /\ returned (run MemStore (GetUserByUsername (Username oldUser)) after)
            = Ok updated
       /\ Username updated = Username oldUser
       /\ Email updated = Email newUser
       /\ Image updated = Image newUser
       /\ Bio updated = Bio newUser
       /\ (PasswordHash newUser = None ->
           PasswordHash updated = PasswordHash oldUser)
       /\ (forall hash, PasswordHash newUser = Some hash ->
             default [] (PasswordHash updated) = hash).
Proof.
  intros Hvalid Hname Hnonblank Hold Hnew Hne Huser Hprojection Hfree after.
  subst after.
  destruct (run_UpdateUser_MemStore Validate oldUser newUser st Hvalid
              (or_introl Hne)) as (expr & Hops & ->).
  case_decide; [contradiction|].
  cbn zeta. rewrite transact_swapTransaction, Hops, Huser.
  apply absent_emails in Hfree. apply present_emails in Hprojection.
  assert (present st UserTableName (Username oldUser) = true) as Hpresent
    by (apply present_users; rewrite Huser; eauto).
  rewrite Hfree, Hprojection, Hpresent.
  cbn [negb andb returned world fst snd default].
  split; [reflexivity|]. split.
  - rewrite (run_GetUserByEmail_MemStore _ _ Hold). cbn [emails].
    rewrite lookup_delete_eq. reflexivity.
  - exists (foldl applyToUser oldUser (diffOperations oldUser newUser)).
    split; [|split; [|apply applyDiff_fields]].
    + rewrite (run_GetUserByEmail_MemStore _ _ Hnew). cbn [emails users].
      rewrite lookup_delete_ne by exact Hne. rewrite lookup_insert_eq.
      cbn [projectionOf UsernameOf]. rewrite Hname.
      destruct (String.eqb_spec (Username oldUser) ""); [contradiction|].
      rewrite lookup_insert_eq. reflexivity.
    + rewrite run_GetUserByUsername_MemStore. cbn [users].
      rewrite lookup_insert_eq. reflexivity.
Qed.

(** On [aliceStore], after [alice] moves to [aliceMoved] her old email is
    not found. *)
Lemma UpdateUser_moves_email_witness :
  returned (run MemStore (GetUserByEmail "alice@example.com")
              (world (run MemStore (UpdateUser ValidateNotBlank alice aliceMoved)
                        aliceStore)))
    = Err (InputError "email" "not found").
Proof.
  refine (proj1 (proj2 (UpdateUser_moves_email ValidateNotBlank alice aliceMoved
            aliceStore eq_refl eq_refl _ _ _ _ eq_refl _ eq_refl)));
    try discriminate.
  exists (mkEmailUser "alice@example.com" "alice"). reflexivity.
Defined.

(** X12: on the in-memory store, when a valid new user asks for another
    email than the old user's and that email has a projection record, Update
    returns the store's cancellation error and leaves both tables as they
    were: the email stays with its owner and the user record is not changed. *)
Theorem UpdateUser_email_taken (Validate : User -> option error)
    (oldUser newUser : User) (st : Store) :
  Validate newUser = None ->
  Email oldUser <> Email newUser ->
  is_Some (emails st !! Email newUser) ->
  returned (run MemStore (UpdateUser Validate oldUser newUser) st)
    = Some ConstraintViolation
  /\ world (run MemStore (UpdateUser Validate oldUser newUser) st) = st.
Proof.
  intros Hvalid Hne Htaken.
  destruct (run_UpdateUser_MemStore Validate oldUser newUser st Hvalid
              (or_introl Hne)) as (expr & Hops & ->).
  case_decide; [contradiction|].
  cbn zeta. rewrite transact_swapTransaction.
  apply present_emails in Htaken. rewrite Htaken. auto.
Qed.

(** [alice] cannot take the email a second user holds. *)
Lemma UpdateUser_email_taken_witness :
  let st :=
    mkStore {[ "alice" := alice ]}
      {[ "alice@example.com" := mkEmailUser "alice@example.com" "alice";
         "alice@example.org" := mkEmailUser "alice@example.org" "carol" ]} in
  returned (run MemStore (UpdateUser ValidateNotBlank alice aliceMoved) st)
    = Some ConstraintViolation
  /\ world (run MemStore (UpdateUser ValidateNotBlank alice aliceMoved) st) = st.
Proof.
  intros st.
  apply (UpdateUser_email_taken ValidateNotBlank alice aliceMoved st eq_refl);
    [discriminate|].
  exists (mkEmailUser "alice@example.org" "carol"). vm_compute. reflexivity.
Defined.

(** X13: on the in-memory store Update never creates a user record: when
    the store has no record under the old user's username, a valid new user
    that differs in some field gets the store's cancellation error and both
    tables stay as they were. *)
Theorem UpdateUser_missing_user (Validate : User -> option error)
    (oldUser newUser : User) (st : Store) :
  Validate newUser = None ->
  someFieldDiffers oldUser newUser ->
  users st !! Username oldUser = None ->
  returned (run MemStore (UpdateUser Validate oldUser newUser) st)
    = Some ConstraintViolation
  /\ world (run MemStore (UpdateUser Validate oldUser newUser) st) = st.
Proof.
  intros Hvalid Hdiffers Hmissing.
  destruct (run_UpdateUser_MemStore Validate oldUser newUser st Hvalid Hdiffers)
    as (expr & Hops & ->).
  apply absent_users in Hmissing.
  cbn zeta. case_decide.
  - cbn [app]. rewrite transact_userUpdate, Hmissing. auto.
  - rewrite transact_swapTransaction, Hmissing, andb_false_r. auto.
Qed.

(** On the empty store the update of [alice] is refused. *)
Lemma UpdateUser_missing_user_witness :
  returned (run MemStore (UpdateUser ValidateNotBlank alice aliceMoved)
              (mkStore ∅ ∅))
    = Some ConstraintViolation
  /\ world (run MemStore (UpdateUser ValidateNotBlank alice aliceMoved)
              (mkStore ∅ ∅))
     = mkStore ∅ ∅.
Proof.
  apply (UpdateUser_missing_user ValidateNotBlank alice aliceMoved (mkStore ∅ ∅)
           eq_refl); [|reflexivity].
  left. discriminate.
Defined.

(** X14: on the in-memory store Update keeps the two tables consistent when
    the old user is the record the store holds under its username and the new
    user has the same username: whatever the validator and the requested
    fields, and whether Update succeeds, fails or does nothing, afterwards
    every user is filed under its username, every projection record points to
    a user with that email, and every user has its projection record. *)
Theorem UpdateUser_consistent (Validate : User -> option error)
    (oldUser newUser : User) (st : Store) :
  consistent st ->
  users st !! Username oldUser = Some oldUser ->
  Username newUser = Username oldUser ->
  consistent (world (run MemStore (UpdateUser Validate oldUser newUser) st)).
Proof.
  intros (Hkeyed & Hprojections & Husers) Hstored Hname.
  pose proof (applyDiff_fields oldUser newUser) as Hfields. cbn zeta in Hfields.
  destruct Hfields as (Hupdated_name & Hupdated_email & _).
  pose proof (UpdateUser_world Validate oldUser newUser st) as Hworld.
  cbn zeta in Hworld. rewrite Hstored in Hworld. cbn [default id] in Hworld.
  set (updated := foldl applyToUser oldUser (diffOperations oldUser newUser)) in *.
  destruct Hworld as [->|[(Hne & Hfree & _ & _ & ->)|(Hsame & _ & ->)]].
  - split; [|split]; assumption.
  - split; [|split]; cbn [users emails].
    + intros key existing Hlookup.
      destruct (decide (Username oldUser = key)) as [<-|Hkey].
      * rewrite lookup_insert_eq in Hlookup. congruence.
      * rewrite lookup_insert_ne in Hlookup by exact Hkey. eauto.
    + intros email projection Hlookup.
      apply lookup_delete_Some in Hlookup. destruct Hlookup as [Hnotold Hlookup].
      destruct (decide (Email newUser = email)) as [<-|Hnotnew].
      * rewrite lookup_insert_eq in Hlookup. injection Hlookup as <-.
        split; [reflexivity|]. exists updated. cbn [projectionOf UsernameOf].
        rewrite Hname, lookup_insert_eq. auto.
      * rewrite lookup_insert_ne in Hlookup by exact Hnotnew.
        destruct (Hprojections email projection Hlookup)
          as (Hkey & owner & Howner & Hmail).
        split; [exact Hkey|]. exists owner. split; [|exact Hmail].
        rewrite lookup_insert_ne; [exact Howner|].
        intros Heq. rewrite <- Heq in Howner. congruence.
    + intros username existing Hlookup.
      destruct (decide (Username oldUser = username)) as [<-|Hkey].
      * rewrite lookup_insert_eq in Hlookup. injection Hlookup as <-.
        exists (projectionOf newUser). rewrite Hupdated_email.
        rewrite lookup_delete_ne by exact Hne. rewrite lookup_insert_eq.
        split; [reflexivity|]. exact Hname.
      * rewrite lookup_insert_ne in Hlookup by exact Hkey.
        destruct (Husers username existing Hlookup)
          as (projection & Hprojection & Hpoints).
        exists projection. split; [|exact Hpoints].
        rewrite lookup_delete_ne, lookup_insert_ne; [exact Hprojection| |].
        -- intros Heq. rewrite Heq, Hprojection in Hfree. discriminate.
        -- intros Heq.
           destruct (Husers _ _ Hstored) as (mine & Hmine & Hminepoints).
           rewrite Heq, Hprojection in Hmine. congruence.
  - split; [|split]; cbn [users emails].
    + intros key existing Hlookup.
      destruct (decide (Username oldUser = key)) as [<-|Hkey].
      * rewrite lookup_insert_eq in Hlookup. congruence.
      * rewrite lookup_insert_ne in Hlookup by exact Hkey. eauto.
    + intros email projection Hlookup.
      destruct (Hprojections email projection Hlookup)
        as (Hkey & owner & Howner & Hmail).
      split; [exact Hkey|].
      destruct (decide (Username oldUser = UsernameOf projection)) as [Heq|Hother].
      * exists updated. rewrite <- Heq, lookup_insert_eq. split; [reflexivity|].
        rewrite <- Heq in Howner. congruence.
      * exists owner. rewrite lookup_insert_ne by exact Hother. auto.
    + intros username existing Hlookup.
      destruct (decide (Username oldUser = username)) as [<-|Hkey].
      * rewrite lookup_insert_eq in Hlookup. injection Hlookup as <-.
        rewrite Hupdated_email, <- Hsame. eauto.
      * rewrite lookup_insert_ne in Hlookup by exact Hkey. eauto.
Qed.

(** After [alice] moves to [aliceMoved], [aliceStore] is still consistent. *)
Lemma UpdateUser_consistent_witness :
  consistent (world (run MemStore (UpdateUser ValidateNotBlank alice aliceMoved)
                       aliceStore)).
Proof.
  exact (UpdateUser_consistent ValidateNotBlank alice aliceMoved aliceStore
           aliceStore_consistent eq_refl eq_refl).
Defined.

(** * Further properties of the batch fetch *)

(** The collecting loop keeps every record under its own username. *)
Lemma collectUsers_keyed (items : list Item)
    (usersByUsername collected : gmap string User) :
  keyedByUsername usersByUsername ->
  collectUsers items usersByUsername = Ok collected ->
  keyedByUsername collected.
Proof.
  revert usersByUsername.
  induction items as [|item items IH]; intros usersByUsername Hkeyed Hcollect.
  - injection Hcollect as <-. exact Hkeyed.
  - destruct item as [user|projection|]; simpl in Hcollect;
      [| |discriminate Hcollect];
      refine (IH _ _ Hcollect);
      intros key existing Hlookup;
      match type of Hlookup with
      | <[?k := _]> _ !! _ = _ =>
          destruct (decide (k = key)) as [<-|Hne];
            [rewrite lookup_insert_eq in Hlookup; injection Hlookup as <-;
             reflexivity
            |rewrite lookup_insert_ne in Hlookup by exact Hne; eauto]
      end.
Qed.

(** The collecting loop succeeds when every item decodes, and returns the
    decoder's error as soon as one does not. *)
Lemma collectUsers_decodes (items : list Item) (usersByUsername : gmap string User) :
  (IllTypedItem ∉ items ->
   exists collected, collectUsers items usersByUsername = Ok collected)
  /\ (IllTypedItem ∈ items ->
      collectUsers items usersByUsername = Err UnmarshalTypeError).
Proof.
  revert usersByUsername.
  induction items as [|item items IH]; intros usersByUsername.
  - split; [eauto|]. intros Hin. apply elem_of_nil in Hin. contradiction.
  - rewrite not_elem_of_cons, elem_of_cons.
    destruct item as [user|projection|]; simpl.
    + split.
      * intros [_ Hrest]. apply IH, Hrest.
      * intros [[=]|Hrest]. apply IH, Hrest.
    + split.
      * intros [_ Hrest]. apply IH, Hrest.
      * intros [[=]|Hrest]. apply IH, Hrest.
    + split; [intros [Hne _]; contradiction|reflexivity].
Qed.

Lemma run_GetUserListByUsername_returned {W : Type} (client : StoreClient W)
    (w : W) (usernames : list string) :
  usernames <> [] ->
  returned (run client (GetUserListByUsername usernames) w)
    = match (batchGetItem client [(UserTableName, batchKeys usernames)] w).1 with
      | Err err => Err err
      | Ok responses =>
          match collectUsers (responseItems responses) ∅ with
          | Err err => Err err
          | Ok collected =>
              Ok (map (fun username => default zeroUser (collected !! username))
                    usernames)
          end
      end.
Proof.
  intros Hne. unfold GetUserListByUsername.
  destruct usernames as [|username usernames]; [contradiction|].
  cbn [length Nat.eqb]. fold (uniqueUsernames (username :: usernames)).
  fold (batchKeys (username :: usernames)).
  cbn [mbind Prog_mbind Prog_bind BatchGetItems run].
  destruct (batchGetItem client [(UserTableName, batchKeys (username :: usernames))] w)
    as [[responses|e] w']; cbn; [|reflexivity].
  destruct (collectUsers (responseItems responses) ∅); reflexivity.
Qed.

(** X15: whatever the store client answers, the batch fetch never issues a
    write and issues at most one call; an error of the batched get is returned
    as it came; when the batched get succeeds, the fetch returns the decoder's
    error if the store returned an item that does not decode into a user, and
    succeeds otherwise; and whenever it succeeds, the result has one entry per
    requested username, in order, each entry being the zero user or a record
    that carries the requested username, and equal usernames get equal
    entries. *)
Theorem GetUserListByUsername_shape (usernames : list string) (W : Type)
    (client : StoreClient W) (w : W) :
  (calls (run client (GetUserListByUsername usernames) w) = []
   \/ calls (run client (GetUserListByUsername usernames) w)
      = [CallBatchGetItem [(UserTableName, batchKeys usernames)]])
  /\ (usernames <> [] ->
      forall e,
        (batchGetItem client [(UserTableName, batchKeys usernames)] w).1 = Err e ->
        returned (run client (GetUserListByUsername usernames) w) = Err e)
  /\ (usernames <> [] ->
      forall responses,
        (batchGetItem client [(UserTableName, batchKeys usernames)] w).1
          = Ok responses ->
        (returnedItem responses IllTypedItem ->
         returned (run client (GetUserListByUsername usernames) w)
           = Err UnmarshalTypeError)
        /\ (~ returnedItem responses IllTypedItem ->
            exists fetched,
              returned (run client (GetUserListByUsername usernames) w)
                = Ok fetched))
  /\ (forall fetched,
        returned (run client (GetUserListByUsername usernames) w) = Ok fetched ->
        length fetched = length usernames
        /\ (forall i username user,
              usernames !! i = Some username -> fetched !! i = Some user ->
              user = zeroUser \/ Username user = username)
        /\ (forall i j username,
              usernames !! i = Some username -> usernames !! j = Some username ->
              fetched !! i = fetched !! j)).
Proof.
  destruct (decide (usernames = [])) as [->|Hne].
  - split; [left; reflexivity|].
    split; [intros Hne; contradiction|]. split; [intros Hne; contradiction|].
    intros fetched [= <-]. split; [reflexivity|].
    split; intros *; rewrite lookup_nil; discriminate.
  - destruct (run_GetUserListByUsername client w usernames Hne) as [Hcalls _].
    rewrite (run_GetUserListByUsername_returned client w usernames Hne).
    split; [right; exact Hcalls|]. split; [|split].
    + intros _ e ->. reflexivity.
    + intros _ responses ->.
      destruct (collectUsers_decodes (responseItems responses) ∅)
        as [Hdecodes Hfails].
      rewrite <- elem_of_responseItems. split.
      * intros Hill. rewrite (Hfails Hill). reflexivity.
      * intros Hwell. destruct (Hdecodes Hwell) as (collected & ->). eauto.
    + intros fetched Hfetched.
      destruct (batchGetItem client [(UserTableName, batchKeys usernames)] w).1
        as [responses|e]; [|discriminate].
      destruct (collectUsers (responseItems responses) ∅) as [collected|e]
        eqn:Hcollect; [|discriminate].
      injection Hfetched as <-.
      assert (keyedByUsername collected) as Hkeyed.
      { apply (collectUsers_keyed _ ∅ _ ltac:(intros key user Hlookup;
          rewrite lookup_empty in Hlookup; discriminate) Hcollect). }
      change (map ?f usernames) with (f <$> usernames).
      split; [apply length_fmap|]. split.
      * intros i username user Hi Hfetched.
        rewrite list_lookup_fmap, Hi in Hfetched. cbn in Hfetched.
        injection Hfetched as <-.
        destruct (collected !! username) as [user|] eqn:Hcollected;
          [right; exact (Hkeyed _ _ Hcollected) | left; reflexivity].
      * intros i j username Hi Hj. rewrite !list_lookup_fmap, Hi, Hj. reflexivity.
Qed.

(** * The current user and the update handler *)

(** The run of a program followed by another is the two runs in a row. *)
Lemma run_bind {W A B : Type} (client : StoreClient W) (p : Prog A)
    (f : A -> Prog B) (w : W) :
  run client (Prog_bind f p) w
    = mkOutcome
        (returned (run client (f (returned (run client p w)))
                     (world (run client p w))))
        (world (run client (f (returned (run client p w)))
                  (world (run client p w))))
        (calls (run client p w)
         ++ calls (run client (f (returned (run client p w)))
                     (world (run client p w)))).
Proof.
  revert w. induction p as [a|table key k IH|input capacity k IH|input k IH];
    intros w; cbn [Prog_bind run].
  - cbn. destruct (run client (f a) w). reflexivity.
  - destruct (getItem client table key w) as [r w']. rewrite IH. reflexivity.
  - destruct (batchGetItem client input w) as [r w']. rewrite IH. reflexivity.
  - destruct (transactWriteItems client input w) as [r w']. rewrite IH. reflexivity.
Qed.

Lemma run_GetUserByUsername {W : Type} (client : StoreClient W) (w : W)
    (username : string) :
  run client (GetUserByUsername username) w
    = mkOutcome
        (match (getItem client UserTableName (StringKey "Username" username) w).1 with
         | Err e => Err e
         | Ok None => Err (InputError "username" "not found")
         | Ok (Some IllTypedItem) => Err UnmarshalTypeError
         | Ok (Some item) => Ok (toUser item)
         end)
        (getItem client UserTableName (StringKey "Username" username) w).2
        [CallGetItem UserTableName (StringKey "Username" username)].
Proof.
  unfold GetUserByUsername. cbn.
  destruct (getItem client UserTableName (StringKey "Username" username) w)
    as [[[[user|projection|]|]|e] w']; reflexivity.
Qed.

Section HandlerProperties.

Variable VerifyAuthorization : string -> result (string * string).
Variable jsonUnmarshal : string -> result RequestBody.
Variable ValidatePassword : string -> option error.
Variable Scrypt : string -> result (option (list byte)).
Variable Validate : User -> option error.

Lemma run_GetCurrentUser {W : Type} (client : StoreClient W) (w : W)
    (auth : string) :
  run client (GetCurrentUser VerifyAuthorization auth) w
    = match VerifyAuthorization auth with
      | Err e => mkOutcome (Err e) w []
      | Ok (username, token) =>
          mkOutcome
            (match (getItem client UserTableName (StringKey "Username" username) w).1 with
             | Err e => Err e
             | Ok None => Err (InputError "username" "not found")
             | Ok (Some IllTypedItem) => Err UnmarshalTypeError
             | Ok (Some item) => Ok (toUser item, token)
             end)
            (getItem client UserTableName (StringKey "Username" username) w).2
            [CallGetItem UserTableName (StringKey "Username" username)]
      end.
Proof.
  unfold GetCurrentUser.
  destruct (VerifyAuthorization auth) as [[username token]|e]; [|reflexivity].
  cbn [mbind Prog_mbind]. rewrite run_bind, run_GetUserByUsername.
  cbn [returned world calls].
  destruct (getItem client UserTableName (StringKey "Username" username) w).1
    as [[[user|projection|]|]|e]; reflexivity.
Qed.

(** The run of the handler, stage by stage. *)
Lemma run_Handle {W : Type} (client : StoreClient W) (w : W)
    (request : APIGatewayProxyRequest) :
  let current :=
    run client (GetCurrentUser VerifyAuthorization (authorizationOf request)) w in
  run client
    (Handle VerifyAuthorization jsonUnmarshal ValidatePassword Scrypt Validate request) w
  = match returned current with
    | Err _ => mkOutcome NewUnauthorizedResponse (world current) (calls current)
    | Ok (oldUser, token) =>
    match jsonUnmarshal (Body request) with
    | Err err => mkOutcome (NewErrorResponse err) (world current) (calls current)
    | Ok requestBody =>
    match ValidatePassword (reqPassword (reqUser requestBody)) with
    | Some err => mkOutcome (NewErrorResponse err) (world current) (calls current)
    | None =>
    match Scrypt (reqPassword (reqUser requestBody)) with
    | Err err => mkOutcome (NewErrorResponse err) (world current) (calls current)
    | Ok passwordHash =>
        let newUser := requestedUser oldUser requestBody passwordHash in
        let update := run client (UpdateUser Validate oldUser newUser) (world current) in
        mkOutcome
          (match returned update with
           | Some err => NewErrorResponse err
           | None =>
               NewSuccessResponse 200
                 (mkResponseBody
                    (mkUserResponse (Username oldUser) (Email newUser)
                       (Image newUser) (Bio newUser) token))
           end)
          (world update) (calls current ++ calls update)
    end end end end.
Proof.
  intros current. unfold Handle. cbn [mbind Prog_mbind].
  rewrite run_bind. fold (authorizationOf request). fold current.
  destruct (returned current) as [[oldUser token]|e].
  - destruct (jsonUnmarshal (Body request)) as [requestBody|err];
      [|cbn; rewrite app_nil_r; reflexivity].
    destruct (ValidatePassword (reqPassword (reqUser requestBody))) as [err|];
      [cbn; rewrite app_nil_r; reflexivity|].
    destruct (Scrypt (reqPassword (reqUser requestBody))) as [passwordHash|err];
      [|cbn; rewrite app_nil_r; reflexivity].
    cbn zeta. fold (requestedUser oldUser requestBody passwordHash).
    rewrite run_bind. cbn [returned world calls].
    destruct (returned (run client
                (UpdateUser Validate oldUser
                   (requestedUser oldUser requestBody passwordHash))
                (world current))); cbn; rewrite app_nil_r; reflexivity.
  - cbn. rewrite app_nil_r. reflexivity.
Qed.

End HandlerProperties.

(** When the new user keeps the username, every operation Update sends
    stays with the old user. *)
Lemma UpdateUser_calls_stay (Validate : User -> option error)
    (oldUser newUser : User) {W : Type} (client : StoreClient W) (w : W) :
  Username newUser = Username oldUser ->
  calls (run client (UpdateUser Validate oldUser newUser) w) = []
  \/ exists input,
       calls (run client (UpdateUser Validate oldUser newUser) w)
         = [CallTransactWriteItems input]
       /\ forall op, op ∈ input -> staysWith oldUser op.
Proof.
  intros Hname.
  pose proof (UpdateUser_cases Validate oldUser newUser) as Hcases.
  destruct (Validate newUser) as [e|].
  - left. rewrite Hcases. reflexivity.
  - destruct Hcases as (expr & _ & _ & _ & Hrun).
    destruct (exprUpdate expr) as [update|].
    + right. eexists. rewrite Hrun, run_TransactWriteItems.
      split; [reflexivity|].
      intros op Hop. apply elem_of_app in Hop. destruct Hop as [Hswap|Hupdate].
      * case_decide; [apply elem_of_nil in Hswap; contradiction|].
        unfold projectionSwap in Hswap.
        rewrite !elem_of_cons, elem_of_nil in Hswap.
        destruct Hswap as [->|[->|[]]].
        -- right; left. exists (Email newUser). unfold projectionOf.
           rewrite Hname. reflexivity.
        -- right; right. reflexivity.
      * apply list_elem_of_singleton in Hupdate. subst op. left. eauto.
    + left. rewrite Hrun. reflexivity.
Qed.

(** When a transaction is due, it holds the update of the user record by
    the diff. *)
Lemma UpdateUser_transaction (Validate : User -> option error)
    (oldUser newUser : User) :
  Validate newUser = None ->
  someFieldDiffers oldUser newUser ->
  exists expr input,
    operations expr = diffOperations oldUser newUser
    /\ userUpdate oldUser expr ∈ input
    /\ forall (W : Type) (client : StoreClient W) (w : W),
         calls (run client (UpdateUser Validate oldUser newUser) w)
           = [CallTransactWriteItems input].
Proof.
  intros Hvalid Hdiffers.
  pose proof (UpdateUser_cases Validate oldUser newUser) as Hcases.
  rewrite Hvalid in Hcases.
  destruct Hcases as (expr & _ & Hops & Hnone & Hrun).
  apply diffOperations_differs in Hdiffers.
  destruct (exprUpdate expr) as [update|].
  - exists expr. eexists. split; [exact Hops|]. split.
    + apply elem_of_app. right. apply list_elem_of_singleton. reflexivity.
    + intros W client w. rewrite Hrun, run_TransactWriteItems. reflexivity.
  - exfalso. apply Hdiffers, Hnone. reflexivity.
Qed.

Section HandlerTheorems.

Variable VerifyAuthorization : string -> result (string * string).
Variable jsonUnmarshal : string -> result RequestBody.
Variable ValidatePassword : string -> option error.
Variable Scrypt : string -> result (option (list byte)).
Variable Validate : User -> option error.

(** X16: whatever the collaborators, the request, the store client and the
    world, the update handler issues no call, or one get of the user record
    of the verified username, or that get followed by one write transaction;
    and every operation of that transaction stays with the record the get
    returned: it updates that record, puts a projection record that points to
    its username, or deletes the projection record of its email.  The body of
    a request cannot rename the user or reach another user's records. *)
Theorem Handle_writes_stay_with_current_user (request : APIGatewayProxyRequest)
    (W : Type) (client : StoreClient W) (w : W) :
  calls (run client
           (Handle VerifyAuthorization jsonUnmarshal ValidatePassword Scrypt
              Validate request) w) = []
  \/ exists username token,
       VerifyAuthorization (authorizationOf request) = Ok (username, token)
       /\ (calls (run client
                    (Handle VerifyAuthorization jsonUnmarshal ValidatePassword
                       Scrypt Validate request) w)
             = [CallGetItem UserTableName (StringKey "Username" username)]
           \/ exists item input,
                (getItem client UserTableName (StringKey "Username" username) w).1
                  = Ok (Some item)
                /\ calls (run client
                            (Handle VerifyAuthorization jsonUnmarshal
                               ValidatePassword Scrypt Validate request) w)
                   = [CallGetItem UserTableName (StringKey "Username" username);
                      CallTransactWriteItems input]
                /\ forall op, op ∈ input -> staysWith (toUser item) op).
Proof.
  rewrite run_Handle. cbn zeta. rewrite run_GetCurrentUser.
  destruct (VerifyAuthorization (authorizationOf request)) as [[username token]|e];
    [|left; reflexivity].
  right. exists username, token. split; [reflexivity|].
  cbn [returned world calls].
  destruct (getItem client UserTableName (StringKey "Username" username) w).1
    as [[item|]|e] eqn:Hget; [|left; reflexivity..].
  assert (item = IllTypedItem
          \/ match item with
             | IllTypedItem => Err UnmarshalTypeError
             | _ => Ok (toUser item, token)
             end = Ok (toUser item, token)) as Hdecoded
    by (destruct item; auto).
  destruct Hdecoded as [Hill|Hdecoded];
    [rewrite Hill; left; reflexivity | rewrite Hdecoded].
  destruct (jsonUnmarshal (Body request)) as [requestBody|err];
    [|left; reflexivity].
  destruct (ValidatePassword (reqPassword (reqUser requestBody))) as [err|];
    [left; reflexivity|].
  destruct (Scrypt (reqPassword (reqUser requestBody))) as [passwordHash|err];
    [|left; reflexivity].
  cbn [calls].
  destruct (UpdateUser_calls_stay Validate (toUser item)
              (requestedUser (toUser item) requestBody passwordHash) client
              (getItem client UserTableName (StringKey "Username" username) w).2
              eq_refl) as [->|(input & -> & Hstay)].
  - left. reflexivity.
  - right. exists item, input. auto.
Qed.

(** X17: when the current user cannot be obtained, whatever the error (a
    failed verification, a username without a record, or an error of the
    store), the handler answers with the unauthorized response, issues no
    write, and makes only the calls of the attempt to get the current user. *)
Theorem Handle_unauthorized (request : APIGatewayProxyRequest) (W : Type)
    (client : StoreClient W) (w : W) (e : error) :
  returned (run client
              (GetCurrentUser VerifyAuthorization (authorizationOf request)) w)
    = Err e ->
  returned (run client
              (Handle VerifyAuthorization jsonUnmarshal ValidatePassword Scrypt
                 Validate request) w) = NewUnauthorizedResponse
  /\ calls (run client
              (Handle VerifyAuthorization jsonUnmarshal ValidatePassword Scrypt
                 Validate request) w)
     = calls (run client
                (GetCurrentUser VerifyAuthorization (authorizationOf request)) w)
  /\ forall input,
       CallTransactWriteItems input
         ∉ calls (run client
                    (Handle VerifyAuthorization jsonUnmarshal ValidatePassword
                       Scrypt Validate request) w).
Proof.
  intros Hcurrent. rewrite run_Handle. cbn zeta. rewrite Hcurrent.
  cbn [returned calls]. split; [reflexivity|]. split; [reflexivity|].
  intros input. rewrite run_GetCurrentUser.
  destruct (VerifyAuthorization (authorizationOf request)) as [[username token]|e'];
    cbn [calls].
  - rewrite list_elem_of_singleton. discriminate.
  - apply not_elem_of_nil.
Qed.

(** X18: when the current user is obtained, the body decodes, the password
    passes, the hash is computed and the new user passes validation, a request
    that leaves the bio empty while the stored record has one makes the
    handler send, after the calls that got the current user, one transaction
    whose update of the user record removes the bio; and the same for the
    image. *)
Theorem Handle_clears_omitted (request : APIGatewayProxyRequest) (W : Type)
    (client : StoreClient W) (w : W) (oldUser : User) (token : string)
    (requestBody : RequestBody) (passwordHash : option (list byte)) :
  returned (run client
              (GetCurrentUser VerifyAuthorization (authorizationOf request)) w)
    = Ok (oldUser, token) ->
  jsonUnmarshal (Body request) = Ok requestBody ->
  ValidatePassword (reqPassword (reqUser requestBody)) = None ->
  Scrypt (reqPassword (reqUser requestBody)) = Ok passwordHash ->
  Validate (requestedUser oldUser requestBody passwordHash) = None ->
  (Bio oldUser <> "" -> reqBio (reqUser requestBody) = "" ->
   exists input expr,
     calls (run client
              (Handle VerifyAuthorization jsonUnmarshal ValidatePassword Scrypt
                 Validate request) w)
       = calls (run client
                  (GetCurrentUser VerifyAuthorization (authorizationOf request)) w)
         ++ [CallTransactWriteItems input]
     /\ userUpdate oldUser expr ∈ input
     /\ REMOVE "Bio" ∈ operations expr)
  /\ (Image oldUser <> "" -> reqImage (reqUser requestBody) = "" ->
      exists input expr,
        calls (run client
                 (Handle VerifyAuthorization jsonUnmarshal ValidatePassword Scrypt
                    Validate request) w)
          = calls (run client
                     (GetCurrentUser VerifyAuthorization (authorizationOf request)) w)
            ++ [CallTransactWriteItems input]
        /\ userUpdate oldUser expr ∈ input
        /\ REMOVE "Image" ∈ operations expr).
Proof.
  intros Hcurrent Hdecode Hpassword Hhash Hvalid.
  rewrite run_Handle. cbn zeta. rewrite Hcurrent, Hdecode, Hpassword, Hhash.
  cbn [calls].
  split.
  - intros Hstored Homitted.
    assert (Bio oldUser <> Bio (requestedUser oldUser requestBody passwordHash))
      as Hbio by (cbn; congruence).
    destruct (UpdateUser_transaction Validate oldUser _ Hvalid
                (or_intror (or_intror (or_intror Hbio))))
      as (expr & input & Hops & Hin & Hcalls).
    exists input, expr. rewrite Hcalls. split; [reflexivity|]. split; [exact Hin|].
    rewrite Hops. apply elem_of_diffOperations. right; right; right.
    apply elem_of_optionalOperations. split; [exact Hbio|]. left. auto.
  - intros Hstored Homitted.
    assert (Image oldUser <> Image (requestedUser oldUser requestBody passwordHash))
      as Himage by (cbn; congruence).
    destruct (UpdateUser_transaction Validate oldUser _ Hvalid
                (or_intror (or_intror (or_introl Himage))))
      as (expr & input & Hops & Hin & Hcalls).
    exists input, expr. rewrite Hcalls. split; [reflexivity|]. split; [exact Hin|].
    rewrite Hops. apply elem_of_diffOperations. right; right; left.
    apply elem_of_optionalOperations. split; [exact Himage|]. left. auto.
Qed.

End HandlerTheorems.

(** A request without an authorization header is answered as unauthorized. *)
Lemma Handle_unauthorized_witness :
  returned (run MemStore
              (Handle sampleVerify sampleUnmarshal samplePassword sampleScrypt
                 ValidateNotBlank (mkRequest ∅ "bio-only")) aliceStore)
    = NewUnauthorizedResponse.
Proof.
  refine (proj1 (Handle_unauthorized sampleVerify sampleUnmarshal samplePassword
                   sampleScrypt ValidateNotBlank (mkRequest ∅ "bio-only")
                   Store MemStore aliceStore (AwsError "Unauthorized") _)).
  vm_compute. reflexivity.
Defined.

(** [alice] sends a body without a bio: the stored bio is removed. *)
Lemma Handle_clears_omitted_witness :
  exists input expr,
    calls (run MemStore
             (Handle sampleVerify sampleUnmarshal samplePassword sampleScrypt
                ValidateNotBlank sampleRequest) aliceStore)
      = calls (run MemStore
                 (GetCurrentUser sampleVerify (authorizationOf sampleRequest))
                 aliceStore)
        ++ [CallTransactWriteItems input]
    /\ userUpdate alice expr ∈ input
    /\ REMOVE "Bio" ∈ operations expr.
Proof.
  refine (proj1 (Handle_clears_omitted sampleVerify sampleUnmarshal samplePassword
                   sampleScrypt ValidateNotBlank sampleRequest Store MemStore
                   aliceStore alice "alice-token"
                   (mkRequestBody (mkUserRequest "alice@example.com" "secret" "" ""))
                   (Some ["x"%byte; "y"%byte]) _ _ _ _ _) _ _);
    try (vm_compute; reflexivity).
  discriminate.
Defined.

(** * Fetches on a consistent store *)

(** X19: on a consistent in-memory store the fetch by a non-empty email and
    the fetch by username agree: a user returned for an email has that email
    and is the user the fetch by its username returns; a stored user with a
    non-empty username is returned for its email; and the fetch by email never
    ends in the not-found error of the username. *)
Theorem GetUserByEmail_agrees (st : Store) (email : string) :
  consistent st ->
  email <> "" ->
  (forall user,
     returned (run MemStore (GetUserByEmail email) st) = Ok user ->
     Email user = email
     /\ returned (run MemStore (GetUserByUsername (Username user)) st) = Ok user)
  /\ (forall user,
        users st !! Username user = Some user ->
        Email user = email ->
        Username user <> "" ->
        returned (run MemStore (GetUserByEmail email) st) = Ok user)
  /\ returned (run MemStore (GetUserByEmail email) st)
     <> Err (InputError "username" "not found").
Proof.
  intros (Hkeyed & Hprojections & Husers) Hemail.
  rewrite (run_GetUserByEmail_MemStore st email Hemail).
  split; [|split].
  - intros user Hfetched.
    destruct (emails st !! email) as [projection|] eqn:Hprojection; [|discriminate].
    destruct (String.eqb (UsernameOf projection) ""); [discriminate|].
    destruct (Hprojections email projection Hprojection)
      as (_ & owner & Howner & Hmail).
    rewrite Howner in Hfetched. injection Hfetched as <-.
    split; [exact Hmail|].
    rewrite run_GetUserByUsername_MemStore, (Hkeyed _ _ Howner), Howner.
    reflexivity.
  - intros user Hstored Hmail Hname.
    destruct (Husers _ _ Hstored) as (projection & Hprojection & Hpoints).
    rewrite Hmail in Hprojection. rewrite Hprojection, Hpoints.
    destruct (String.eqb_spec (Username user) ""); [contradiction|].
    rewrite Hstored. reflexivity.
  - destruct (emails st !! email) as [projection|] eqn:Hprojection; [|discriminate].
    destruct (String.eqb (UsernameOf projection) ""); [discriminate|].
    destruct (Hprojections email projection Hprojection)
      as (_ & owner & Howner & _).
    rewrite Howner. discriminate.
Qed.

(** On [aliceStore] the fetch by the email of [alice] returns [alice]. *)
Lemma GetUserByEmail_agrees_witness :
  returned (run MemStore (GetUserByEmail "alice@example.com") aliceStore) = Ok alice.
Proof.
  refine (proj1 (proj2 (GetUserByEmail_agrees aliceStore "alice@example.com"
                          aliceStore_consistent _)) alice eq_refl eq_refl _);
    discriminate.
Defined.
